(** * State sync reactor (statesync/reactor.go)

    A shallow embedding of the state sync reactor: the four protocol
    messages with their [ValidateBasic] methods, [decodeMsg], and the
    reactor callbacks [Receive] and [AddPeer].

    Go values are modelled as follows.
    - [uint64], [uint32] and [int] are [Z]; the reactor only compares them.
    - [[]byte] and [[sha1.Size]byte] are [list byte].
    - A pointer that the code tests against [nil] is an [option].
    - A Go [error] result is an [option Error] ([None] is [nil]).
    - The reactor's effects on its collaborators (the switch and the peers)
      are recorded, oldest first, in the field [wire] of the reactor state.
    - A [panic] ends the callback with [Panicked].
    Calls to the logger have no effect on any state and are left out. *)

From Stdlib Require Import ZArith List Bool String Lia.
From Stdlib Require Import Permutation Sorted.
From Stdlib Require Import Init.Byte.
Import ListNotations.

Open Scope string_scope.
Close Scope list_scope.
Open Scope list_scope.
Open Scope Z_scope.

(** [len] of a slice. *)
Abbreviation len := List.length (only parsing).

(** ** Constants *)

Definition MetadataChannel : byte := x60.
Definition ChunkChannel : byte := x61.

Definition maxMsgSize : Z := 65000000.
Definition metadataMsgSize : Z := 16000000.
Definition chunkMsgSize : Z := 64000000.

(** [sha1.Size] *)
Definition sha1_Size : nat := 20.

(** ** Errors and panics *)

(** The error values the reactor builds or compares against.  The three
    [ErrSnapshotRejected*] sentinels are package variables that [Receive]
    compares with [switch err]; every other error is built from a text. *)
Inductive Error : Type :=
| errors_New (text : string)
| msg_exceeds_max_size (len max : Z)
| ErrSnapshotRejected
| ErrSnapshotRejectedFormat
| ErrSnapshotRejectedHeight.

Inductive PanicValue : Type :=
| panic_error (err : Error)
| panic_string (text : string)
| nil_dereference.

(** ** Messages *)

Module Snapshot.

Record t : Type := mk {
  Height : Z;
  Format : Z;
  Chunks : Z;
  Metadata : list byte
}.

Definition ValidateBasic (s : option t) : option Error :=
  match s with
  | None => Some (errors_New "snapshot cannot be nil")
  | Some s =>
      if Height s =? 0 then Some (errors_New "snapshot height cannot be 0")
      else None
  end.

End Snapshot.

Module SnapshotChunk.

Record t : Type := mk {
  Height : Z;
  Chunk : Z;
  Format : Z;
  Data : list byte;
  Checksum : list byte
}.

Definition ValidateBasic (c : option t) : option Error :=
  match c with
  | None => Some (errors_New "chunk cannot be nil")
  | Some c =>
      if Height c =? 0 then Some (errors_New "chunk height cannot be 0")
      else if Chunk c =? 0 then Some (errors_New "chunk index cannot be 0")
      else None
  end.

End SnapshotChunk.

Module ListSnapshotsRequestMessage.

Inductive t : Type := mk.

Definition ValidateBasic (m : option t) : option Error := None.

End ListSnapshotsRequestMessage.

Module ListSnapshotsResponseMessage.

Record t : Type := mk {
  Snapshots : list Snapshot.t
}.

(** The [for _, snapshot := range m.Snapshots] loop: the first error ends it. *)
Fixpoint validate_each (snapshots : list Snapshot.t) : option Error :=
  match snapshots with
  | [] => None
  | snapshot :: rest =>
      match Snapshot.ValidateBasic (Some snapshot) with
      | Some err => Some err
      | None => validate_each rest
      end
  end.

Definition ValidateBasic (m : option t) : option Error :=
  match m with
  | None => Some (errors_New "nil message")
  | Some m => validate_each (Snapshots m)
  end.

End ListSnapshotsResponseMessage.

Module GetSnapshotChunkRequestMessage.

Record t : Type := mk {
  Height : Z;
  Format : Z;
  Chunk : Z
}.

Definition ValidateBasic (m : option t) : option Error :=
  match m with
  | None => Some (errors_New "nil message")
  | Some m =>
      if Height m =? 0 then Some (errors_New "height 0")
      else if Chunk m =? 0 then Some (errors_New "chunk 0")
      else None
  end.

End GetSnapshotChunkRequestMessage.

Module GetSnapshotChunkResponseMessage.

Record t : Type := mk {
  Chunk : SnapshotChunk.t
}.

Definition ValidateBasic (m : option t) : option Error :=
  match m with
  | None => Some (errors_New "chunk cannot be nil")
  | Some m => SnapshotChunk.ValidateBasic (Some (Chunk m))
  end.

End GetSnapshotChunkResponseMessage.

(** The [Message] interface: the codec registers the four pointer types, so
    a message is one of four pointers. *)
Inductive Message : Type :=
| ListSnapshotsRequest (m : option ListSnapshotsRequestMessage.t)
| ListSnapshotsResponse (m : option ListSnapshotsResponseMessage.t)
| GetSnapshotChunkRequest (m : option GetSnapshotChunkRequestMessage.t)
| GetSnapshotChunkResponse (m : option GetSnapshotChunkResponseMessage.t).

(** [msg.ValidateBasic()] through the interface. *)
Definition ValidateBasic (msg : Message) : option Error :=
  match msg with
  | ListSnapshotsRequest m => ListSnapshotsRequestMessage.ValidateBasic m
  | ListSnapshotsResponse m => ListSnapshotsResponseMessage.ValidateBasic m
  | GetSnapshotChunkRequest m => GetSnapshotChunkRequestMessage.ValidateBasic m
  | GetSnapshotChunkResponse m => GetSnapshotChunkResponseMessage.ValidateBasic m
  end.

(** ** Collaborators *)

(** The packages [Receive] imports and calls: the amino codec [cdc] and
    [sort.Slice].  They are not part of this package and stay parameters. *)
Class Imports : Type := {
  UnmarshalBinaryBare : list byte -> Message + Error;
  MustMarshalBinaryBare : Message -> list byte;
  sort_Slice :
    (Snapshot.t -> Snapshot.t -> bool) -> list Snapshot.t -> list Snapshot.t
}.

(** The ABCI types the application connection exchanges. *)
Module types.

Record Snapshot : Type := mkSnapshot {
  Height : Z;
  Format : Z;
  Chunks : Z;
  Metadata : list byte
}.

Record SnapshotChunk : Type := mkSnapshotChunk {
  chunk_Height : Z;
  chunk_Format : Z;
  chunk_Chunk : Z;
  chunk_Data : list byte;
  chunk_Checksum : list byte
}.

Record ResponseListSnapshots : Type := {
  Snapshots : list Snapshot
}.

Record RequestGetSnapshotChunk : Type := {
  req_Height : Z;
  req_Format : Z;
  req_Chunk : Z
}.

(** [Chunk] is a pointer, [nil] when the application has no such chunk. *)
Record ResponseGetSnapshotChunk : Type := {
  Chunk : option SnapshotChunk
}.

End types.

(** [proxy.AppConnSnapshot], as far as the reactor calls it.  [App] is the
    state of the application behind the connection; a call may change it. *)
Class AppConnSnapshot (App : Type) : Type := {
  ListSnapshotsSync :
    App -> (types.ResponseListSnapshots + Error) * App;
  GetSnapshotChunkSync :
    types.RequestGetSnapshotChunk -> App ->
    (types.ResponseGetSnapshotChunk + Error) * App
}.

(** The restore state machine [Sync] as the reactor uses it: the methods it
    calls and the two fields it reads.  The type itself is declared outside
    this file; [Start] and [Apply] talk to the application, so they take and
    return its state. *)
Class SyncMachine (App Sync : Type) : Type := {
  NewSync : Sync;
  IsActive : Sync -> bool;
  IsDone : Sync -> bool;
  Start : Snapshot.t -> Sync -> App -> option Error * Sync * App;
  NextChunk : Sync -> Z * Z * Z;
  Apply : SnapshotChunk.t -> Sync -> App -> option Error * Sync * App;
  snapshot : Sync -> option Snapshot.t;
  nextChunk : Sync -> Z
}.

(** A peer, known by its ID. *)
Definition Peer : Type := string.

(** [p2p.ChannelDescriptor], the fields the reactor sets. *)
Record ChannelDescriptor : Type := {
  ID : byte;
  Priority : Z;
  SendQueueCapacity : Z;
  RecvMessageCapacity : Z
}.

(** What the reactor does to the switch and to peers. *)
Inductive Effect : Type :=
| StopPeerForError (peer : Peer) (reason : Error)
| Send (peer : Peer) (chID : byte) (msgBytes : list byte).

(** ** Callbacks as state transformers *)

Inductive Outcome (A : Type) : Type :=
| Returned (a : A)
| Panicked (v : PanicValue).

Arguments Returned {A} a.
Arguments Panicked {A} v.

Definition M (S A : Type) : Type := S -> Outcome A * S.

Definition ret {S A : Type} (a : A) : M S A := fun s => (Returned a, s).

Definition bind {S A B : Type} (c : M S A) (k : A -> M S B) : M S B :=
  fun s =>
    match c s with
    | (Returned a, s') => k a s'
    | (Panicked v, s') => (Panicked v, s')
    end.

Definition panic {S A : Type} (v : PanicValue) : M S A :=
  fun s => (Panicked v, s).

Declare Scope go_scope.
Delimit Scope go_scope with go.
Notation "x <- c ;; k" := (bind c (fun x => k))
  (at level 61, c at next level, right associativity) : go_scope.
Notation "c ;; k" := (bind c (fun _ => k))
  (at level 61, right associativity) : go_scope.

(** [copy(dst[:], src)] into a zeroed array of [n] bytes. *)
Definition copy_into_array (n : nat) (src : list byte) : list byte :=
  firstn n src ++ repeat x00 (n - len (firstn n src))%nat.

(** [decodeMsg]: the size test comes before the codec sees the bytes. *)
Definition decodeMsg `{Imports} (bz : list byte) : Message + Error :=
  if Z.of_nat (len bz) >? maxMsgSize
  then inr (msg_exceeds_max_size (Z.of_nat (len bz)) maxMsgSize)
  else UnmarshalBinaryBare bz.

(** The comparator handed to [sort.Slice] in [Receive]. *)
Definition snapshot_less (a b : Snapshot.t) : bool :=
  if Snapshot.Height a <? Snapshot.Height b then false
  else if (Snapshot.Height a =? Snapshot.Height b)
          && (Snapshot.Format a <? Snapshot.Format b) then false
  else true.

(** [cfg.StateSyncConfig] *)
Record StateSyncConfig : Type := {
  Enabled : bool
}.

(** ** The reactor *)

Section Reactor.

Context {App Sync : Type}.
Context {conn_ops : AppConnSnapshot App}.
Context {sync_ops : SyncMachine App Sync}.
Context {imports : Imports}.

(** The reactor's fields, with [running] for [BaseReactor.IsRunning] and
    [wire] for what has been done to the switch and the peers so far. *)
Record Reactor : Type := mkReactor {
  running : bool;
  config : StateSyncConfig;
  conn : App;
  sync : Sync;
  wire : list Effect
}.

Definition NewReactor (config : StateSyncConfig) (conn : App) : Reactor :=
  {| running := false; config := config; conn := conn;
     sync := NewSync; wire := [] |}.

Definition IsRunning : M Reactor bool :=
  fun ssR => (Returned (running ssR), ssR).

(** Reads a method or field of [ssR.sync] that does not change it. *)
Definition sync_get {A : Type} (f : Sync -> A) : M Reactor A :=
  fun ssR => (Returned (f (sync ssR)), ssR).

Definition record (e : Effect) : M Reactor unit :=
  fun ssR =>
    (Returned tt,
     {| running := running ssR; config := config ssR; conn := conn ssR;
        sync := sync ssR; wire := wire ssR ++ [e] |}).

Definition Switch_StopPeerForError (peer : Peer) (reason : Error)
  : M Reactor unit :=
  record (StopPeerForError peer reason).

(** [peer.Send]; the reactor ignores its result except to log it. *)
Definition peer_Send (peer : Peer) (chID : byte) (msgBytes : list byte)
  : M Reactor unit :=
  record (Send peer chID msgBytes).

(** The reactor after [ssR.Switch.StopPeerForError(src, err)]. *)
Definition stopped (src : Peer) (err : Error) (ssR : Reactor) : Reactor :=
  {| running := running ssR; config := config ssR; conn := conn ssR;
     sync := sync ssR; wire := wire ssR ++ [StopPeerForError src err] |}.

(** The reactor after [peer.Send(chID, msgBytes)]. *)
Definition sent (peer : Peer) (chID : byte) (msgBytes : list byte)
  (ssR : Reactor) : Reactor :=
  {| running := running ssR; config := config ssR; conn := conn ssR;
     sync := sync ssR; wire := wire ssR ++ [Send peer chID msgBytes] |}.

Definition with_sync (sy : Sync) (app : App) (ssR : Reactor) : Reactor :=
  {| running := running ssR; config := config ssR; conn := app;
     sync := sy; wire := wire ssR |}.

Definition sync_Start (snapshot : Snapshot.t) : M Reactor (option Error) :=
  fun ssR =>
    let '(err, sy, app) := Start snapshot (sync ssR) (conn ssR) in
    (Returned err, with_sync sy app ssR).

Definition sync_Apply (chunk : SnapshotChunk.t) : M Reactor (option Error) :=
  fun ssR =>
    let '(err, sy, app) := Apply chunk (sync ssR) (conn ssR) in
    (Returned err, with_sync sy app ssR).

Definition conn_ListSnapshotsSync
  : M Reactor (types.ResponseListSnapshots + Error) :=
  fun ssR =>
    let '(res, app) := ListSnapshotsSync (conn ssR) in
    (Returned res, with_sync (sync ssR) app ssR).

Definition conn_GetSnapshotChunkSync (req : types.RequestGetSnapshotChunk)
  : M Reactor (types.ResponseGetSnapshotChunk + Error) :=
  fun ssR =>
    let '(res, app) := GetSnapshotChunkSync req (conn ssR) in
    (Returned res, with_sync (sync ssR) app ssR).

(** [GetChannels] *)
Definition GetChannels : list ChannelDescriptor :=
  [ {| ID := MetadataChannel; Priority := 3; SendQueueCapacity := 100;
       RecvMessageCapacity := metadataMsgSize |};
    {| ID := ChunkChannel; Priority := 1; SendQueueCapacity := 4;
       RecvMessageCapacity := chunkMsgSize |} ].

(** [OnStart]: both branches return [nil] and change nothing. *)
Definition OnStart : M Reactor (option Error) :=
  fun ssR =>
    if negb (Enabled (config ssR)) then (Returned None, ssR)
    else (Returned None, ssR).

Local Open Scope go_scope.

(** *** [Receive], case [*ListSnapshotsRequestMessage] (lines 99-117) *)

Definition to_Snapshot (snapshot : types.Snapshot) : Snapshot.t :=
  {| Snapshot.Height := types.Height snapshot;
     Snapshot.Format := types.Format snapshot;
     Snapshot.Chunks := types.Chunks snapshot;
     Snapshot.Metadata := types.Metadata snapshot |}.

Definition Receive_ListSnapshotsRequest (src : Peer) : M Reactor unit :=
  res <- conn_ListSnapshotsSync ;;
  match res with
  | inr err => ret tt
  | inl resp =>
      let snapshots := map to_Snapshot (types.Snapshots resp) in
      peer_Send src MetadataChannel
        (MustMarshalBinaryBare
           (ListSnapshotsResponse
              (Some {| ListSnapshotsResponseMessage.Snapshots := snapshots |})))
  end.

(** *** [Receive], case [*ListSnapshotsResponseMessage] (lines 118-159) *)

(** The [for _, snapshot := range snapshots] loop: [continue] on one of the
    three rejections, [panic] on any other error, [break] after the request
    for the first chunk has been sent. *)
Fixpoint offer_each (src : Peer) (snapshots : list Snapshot.t)
  : M Reactor unit :=
  match snapshots with
  | [] => ret tt
  | snapshot :: rest =>
      err <- sync_Start snapshot ;;
      match err with
      | Some ErrSnapshotRejected
      | Some ErrSnapshotRejectedFormat
      | Some ErrSnapshotRejectedHeight => offer_each src rest
      | Some err => panic (panic_error err)
      | None =>
          next <- sync_get NextChunk ;;
          let '(height, format, chunk) := next in
          peer_Send src ChunkChannel
            (MustMarshalBinaryBare
               (GetSnapshotChunkRequest
                  (Some {| GetSnapshotChunkRequestMessage.Height := height;
                           GetSnapshotChunkRequestMessage.Format := format;
                           GetSnapshotChunkRequestMessage.Chunk := chunk |})))
      end
  end.

Definition Receive_ListSnapshotsResponse
  (src : Peer) (msg : option ListSnapshotsResponseMessage.t)
  : M Reactor unit :=
  active <- sync_get IsActive ;;
  done <- sync_get IsDone ;;
  if active || done then ret tt
  else
    match msg with
    | None => panic nil_dereference
    | Some msg =>
        if (len (ListSnapshotsResponseMessage.Snapshots msg) =? 0)%nat
        then ret tt
        else
          let snapshots :=
            sort_Slice snapshot_less
              (ListSnapshotsResponseMessage.Snapshots msg) in
          offer_each src snapshots
    end.

(** *** [Receive], case [*GetSnapshotChunkRequestMessage] (lines 163-184) *)

Definition to_SnapshotChunk (c : types.SnapshotChunk) : SnapshotChunk.t :=
  {| SnapshotChunk.Height := types.chunk_Height c;
     SnapshotChunk.Format := types.chunk_Format c;
     SnapshotChunk.Chunk := types.chunk_Chunk c;
     SnapshotChunk.Data := types.chunk_Data c;
     SnapshotChunk.Checksum :=
       copy_into_array sha1_Size (types.chunk_Checksum c) |}.

Definition Receive_GetSnapshotChunkRequest
  (src : Peer) (msg : option GetSnapshotChunkRequestMessage.t)
  : M Reactor unit :=
  match msg with
  | None => panic nil_dereference
  | Some msg =>
      res <- conn_GetSnapshotChunkSync
               {| types.req_Height := GetSnapshotChunkRequestMessage.Height msg;
                  types.req_Format := GetSnapshotChunkRequestMessage.Format msg;
                  types.req_Chunk := GetSnapshotChunkRequestMessage.Chunk msg |} ;;
      match res with
      | inr err => panic (panic_error err)
      | inl resp =>
          match types.Chunk resp with
          | None => panic (panic_string "No chunk")
          | Some c =>
              let chunk := to_SnapshotChunk c in
              peer_Send src ChunkChannel
                (MustMarshalBinaryBare
                   (GetSnapshotChunkResponse
                      (Some {| GetSnapshotChunkResponseMessage.Chunk := chunk |})))
          end
      end
  end.

(** *** [Receive], case [*GetSnapshotChunkResponseMessage] (lines 186-205) *)

Definition Receive_GetSnapshotChunkResponse
  (src : Peer) (msg : option GetSnapshotChunkResponseMessage.t)
  : M Reactor unit :=
  active <- sync_get IsActive ;;
  if negb active then ret tt
  else
    match msg with
    | None => panic nil_dereference
    | Some msg =>
        err <- sync_Apply (GetSnapshotChunkResponseMessage.Chunk msg) ;;
        match err with
        | Some err => panic (panic_error err)
        | None =>
            done <- sync_get IsDone ;;
            if done then ret tt
            else
              chunk <- sync_get nextChunk ;;
              active_snapshot <- sync_get snapshot ;;
              match active_snapshot with
              | None => panic nil_dereference
              | Some s =>
                  peer_Send src ChunkChannel
                    (MustMarshalBinaryBare
                       (GetSnapshotChunkRequest
                          (Some {| GetSnapshotChunkRequestMessage.Height :=
                                     Snapshot.Height s;
                                   GetSnapshotChunkRequestMessage.Format :=
                                     Snapshot.Format s;
                                   GetSnapshotChunkRequestMessage.Chunk :=
                                     chunk |})))
              end
        end
    end.

(** *** [Receive] *)

(** The two nested switches: on the channel, then on the message type.  A
    message type that a channel has no case for falls through. *)
Definition dispatch (chID : byte) (src : Peer) (msg : Message)
  : M Reactor unit :=
  if Byte.eqb chID MetadataChannel then
    match msg with
    | ListSnapshotsRequest _ => Receive_ListSnapshotsRequest src
    | ListSnapshotsResponse m => Receive_ListSnapshotsResponse src m
    | _ => ret tt
    end
  else if Byte.eqb chID ChunkChannel then
    match msg with
    | GetSnapshotChunkRequest m => Receive_GetSnapshotChunkRequest src m
    | GetSnapshotChunkResponse m => Receive_GetSnapshotChunkResponse src m
    | _ => ret tt
    end
  else ret tt.

Definition Receive (chID : byte) (src : Peer) (msgBytes : list byte)
  : M Reactor unit :=
  isRunning <- IsRunning ;;
  if negb isRunning then ret tt
  else
    match decodeMsg msgBytes with
    | inr err => Switch_StopPeerForError src err
    | inl msg =>
        match ValidateBasic msg with
        | Some err => Switch_StopPeerForError src err
        | None => dispatch chID src msg
        end
    end.

(** *** [AddPeer] and [RemovePeer] *)

(** The loop of the goroutine that [AddPeer] starts.  [peer.IsRunning()] is
    the peer's own state: [isRunning] lists what it answers at each test of
    the loop condition, and the loop is followed for as long as the list
    lasts.  The ten second sleep between two tests changes nothing here. *)
Fixpoint solicit (peer : Peer) (isRunning : list bool) : M Reactor unit :=
  match isRunning with
  | [] => ret tt
  | up :: later =>
      active <- sync_get IsActive ;;
      done <- sync_get IsDone ;;
      if up && negb active && negb done then
        peer_Send peer MetadataChannel
          (MustMarshalBinaryBare
             (ListSnapshotsRequest (Some ListSnapshotsRequestMessage.mk))) ;;
        solicit peer later
      else ret tt
  end.

Definition AddPeer (peer : Peer) (isRunning : list bool) : M Reactor unit :=
  solicit peer isRunning.

Definition RemovePeer (peer : Peer) : M Reactor unit := ret tt.

End Reactor.

Arguments Reactor App Sync : clear implicits.

(** ** The restore state machine *)

(** The application's answer to an offered snapshot. *)
Inductive OfferResult : Type :=
| Accept
| Reject
| RejectFormat
| RejectHeight.

(** Modelled from the spec: the two application calls of the restore path,
    [offer_snapshot] and [apply_chunk], which [Sync] makes and whose
    declarations are missing from the sources.  [apply_chunk] answers [true]
    for ok and [false] for reject; either call can also fail with an error.
    The expected application hash of [offer_snapshot] is not known to the
    reactor and is left out. *)
Class AppRestore (App : Type) : Type := {
  offer_snapshot : Snapshot.t -> App -> (OfferResult + Error) * App;
  apply_chunk : Z -> Z -> Z -> list byte -> App -> (bool + Error) * App
}.

Module SpecSync.

(** Modelled from the spec: the states of [Sync], whose declaration is
    missing from the sources. *)
Inductive t : Type :=
| Idle
| Active (snapshot : Snapshot.t) (next_chunk : Z)
| Done (height format : Z)
| Failed (reason : Error).

Definition is_active (s : t) : bool :=
  match s with Active _ _ => true | _ => false end.

Definition is_done (s : t) : bool :=
  match s with Done _ _ => true | _ => false end.

Definition next_chunk_of (s : t) : Z * Z * Z :=
  match s with
  | Active snapshot n => (Snapshot.Height snapshot, Snapshot.Format snapshot, n)
  | _ => (0, 0, 0)
  end.

Definition snapshot_of (s : t) : option Snapshot.t :=
  match s with Active snapshot _ => Some snapshot | _ => None end.

Definition nextChunk_of (s : t) : Z :=
  match s with Active _ n => n | _ => 0 end.

Definition rejection (r : OfferResult) : option Error :=
  match r with
  | Accept => None
  | Reject => Some ErrSnapshotRejected
  | RejectFormat => Some ErrSnapshotRejectedFormat
  | RejectHeight => Some ErrSnapshotRejectedHeight
  end.

(** Modelled from the spec: [Sync.Start], missing from the sources.  From
    [Idle] the snapshot is offered to the application: an accepted offer
    leads to [Active] at chunk 1, a rejection or a failed call leaves the
    machine [Idle] and is returned as the error.  Every other state is left
    unchanged. *)
Definition start {App : Type} `{AppRestore App}
  (snapshot : Snapshot.t) (s : t) (app : App) : option Error * t * App :=
  match s with
  | Idle =>
      match offer_snapshot snapshot app with
      | (inl Accept, app') => (None, Active snapshot 1, app')
      | (inl r, app') => (rejection r, Idle, app')
      | (inr err, app') => (Some err, Idle, app')
      end
  | _ => (Some (errors_New "no snapshot can be started"), s, app)
  end.

Definition expected (snapshot : Snapshot.t) (n : Z) (chunk : SnapshotChunk.t)
  : bool :=
  (SnapshotChunk.Height chunk =? Snapshot.Height snapshot)
  && (SnapshotChunk.Format chunk =? Snapshot.Format snapshot)
  && (SnapshotChunk.Chunk chunk =? n).

(** Modelled from the spec: [Sync.Apply], missing from the sources.  In
    [Active] a chunk with the expected (height, format, chunk) is applied:
    on success the final chunk leads to [Done] and any other chunk to the
    next index; a rejected or failed apply leads to [Failed].  A chunk with
    another triple is refused without being applied.  Every other state is
    left unchanged. *)
Definition apply {App : Type} `{AppRestore App}
  (chunk : SnapshotChunk.t) (s : t) (app : App) : option Error * t * App :=
  match s with
  | Active snapshot n =>
      if expected snapshot n chunk then
        match apply_chunk (SnapshotChunk.Height chunk)
                (SnapshotChunk.Format chunk) (SnapshotChunk.Chunk chunk)
                (SnapshotChunk.Data chunk) app with
        | (inl true, app') =>
            if n =? Snapshot.Chunks snapshot
            then (None,
                  Done (Snapshot.Height snapshot) (Snapshot.Format snapshot),
                  app')
            else (None, Active snapshot (n + 1), app')
        | (inl false, app') =>
            let err := errors_New "chunk rejected" in
            (Some err, Failed err, app')
        | (inr err, app') => (Some err, Failed err, app')
        end
      else (Some (errors_New "unexpected chunk"), s, app)
  | _ => (Some (errors_New "no restore in progress"), s, app)
  end.

End SpecSync.

(** Modelled from the spec: the [Sync] of section 4.3 as the machine the
    reactor drives; the type and its methods are missing from the sources. *)
#[export] Instance spec_sync {App : Type} `{AppRestore App}
  : SyncMachine App SpecSync.t := {
  NewSync := SpecSync.Idle;
  IsActive := SpecSync.is_active;
  IsDone := SpecSync.is_done;
  Start := SpecSync.start;
  NextChunk := SpecSync.next_chunk_of;
  Apply := SpecSync.apply;
  snapshot := SpecSync.snapshot_of;
  nextChunk := SpecSync.nextChunk_of
}.

(** ** An application that records its calls *)

Inductive AppCall : Type :=
| list_snapshots_call
| load_chunk_call (req : types.RequestGetSnapshotChunk)
| offer_snapshot_call (snapshot : Snapshot.t)
| apply_chunk_call (height format chunk : Z) (data : list byte).

(** What an application answers, as a function of the calls made so far
    (oldest first): any deterministic application is of this form. *)
Class Application : Type := {
  on_list_snapshots : list AppCall -> types.ResponseListSnapshots + Error;
  on_load_chunk :
    list AppCall -> types.RequestGetSnapshotChunk ->
    types.ResponseGetSnapshotChunk + Error;
  on_offer_snapshot : list AppCall -> Snapshot.t -> OfferResult + Error;
  on_apply_chunk : list AppCall -> Z -> Z -> Z -> list byte -> bool + Error
}.

(** The application connection keeps the list of calls as its state. *)
#[export] Instance recording_conn {app : Application}
  : AppConnSnapshot (list AppCall) := {
  ListSnapshotsSync calls :=
    (on_list_snapshots calls, calls ++ [list_snapshots_call]);
  GetSnapshotChunkSync req calls :=
    (on_load_chunk calls req, calls ++ [load_chunk_call req])
}.

#[export] Instance recording_restore {app : Application}
  : AppRestore (list AppCall) := {
  offer_snapshot snapshot calls :=
    (on_offer_snapshot calls snapshot,
     calls ++ [offer_snapshot_call snapshot]);
  apply_chunk height format chunk data calls :=
    (on_apply_chunk calls height format chunk data,
     calls ++ [apply_chunk_call height format chunk data])
}.

(** The (height, format, chunk) of every [apply_chunk] call, oldest first. *)
Fixpoint applied (calls : list AppCall) : list (Z * Z * Z) :=
  match calls with
  | [] => []
  | apply_chunk_call height format chunk _ :: rest =>
      (height, format, chunk) :: applied rest
  | _ :: rest => applied rest
  end.

(** The snapshots offered, oldest first. *)
Fixpoint offered (calls : list AppCall) : list Snapshot.t :=
  match calls with
  | [] => []
  | offer_snapshot_call snapshot :: rest => snapshot :: offered rest
  | _ :: rest => offered rest
  end.

(** The chunks [1..k] of a snapshot, in ascending order. *)
Definition chunks_upto (snapshot : Snapshot.t) (k : Z) : list (Z * Z * Z) :=
  map (fun i => (Snapshot.Height snapshot, Snapshot.Format snapshot,
                 Z.of_nat i))
      (seq 1 (Z.to_nat k)).

(** What holds of the machine and the calls recorded, in every state a
    restore goes through: the chunks applied so far are those below the
    next index, and a finished restore has applied all of them. *)
Definition restore_inv (s : SpecSync.t) (calls : list AppCall) : Prop :=
  match s with
  | SpecSync.Idle => applied calls = []
  | SpecSync.Active snapshot n =>
      1 <= n
      /\ In snapshot (offered calls)
      /\ applied calls = chunks_upto snapshot (n - 1)
      /\ (n <= Snapshot.Chunks snapshot \/ Snapshot.Chunks snapshot < 1)
  | SpecSync.Done height format =>
      exists snapshot,
        height = Snapshot.Height snapshot
        /\ format = Snapshot.Format snapshot
        /\ In snapshot (offered calls)
        /\ applied calls = chunks_upto snapshot (Snapshot.Chunks snapshot)
  | SpecSync.Failed _ => True
  end.

(** The request for chunk [n] of [snapshot], as sent on the chunk channel. *)
Definition chunk_request `{Imports} (snapshot : Snapshot.t) (n : Z) : list byte :=
  MustMarshalBinaryBare
    (GetSnapshotChunkRequest
       (Some {| GetSnapshotChunkRequestMessage.Height :=
                  Snapshot.Height snapshot;
                GetSnapshotChunkRequestMessage.Format :=
                  Snapshot.Format snapshot;
                GetSnapshotChunkRequestMessage.Chunk := n |})).

Definition inv (ssR : Reactor (list AppCall) SpecSync.t) : Prop :=
  restore_inv (sync ssR) (conn ssR).

(** ** Inbound traffic *)

Record Delivery : Type := {
  chID : byte;
  src : Peer;
  msgBytes : list byte
}.

Section Deliveries.

Context {App Sync : Type}.
Context {conn_ops : AppConnSnapshot App}.
Context {sync_ops : SyncMachine App Sync}.
Context {imports : Imports}.

Local Open Scope go_scope.

(** The switch calls [Receive] once per inbound message; a panic ends it. *)
Fixpoint deliver (inbound : list Delivery) : M (Reactor App Sync) unit :=
  match inbound with
  | [] => ret tt
  | d :: later => Receive (chID d) (src d) (msgBytes d) ;; deliver later
  end.

End Deliveries.

(** ** Stand-ins for the imported packages *)

(** Insertion of [x] into a list already ordered by [less]. *)
Fixpoint insert_by {A : Type} (less : A -> A -> bool) (x : A) (l : list A)
  : list A :=
  match l with
  | [] => [x]
  | y :: rest => if less x y then x :: y :: rest else y :: insert_by less x rest
  end.

Definition insertion_sort {A : Type} (less : A -> A -> bool) (l : list A)
  : list A :=
  fold_right (insert_by less) [] l.

Definition list_byte_eqb (a b : list byte) : bool :=
  if list_eq_dec Byte.byte_eq_dec a b then true else false.

(** A codec given by a table of wire encodings. *)
Fixpoint table_decode (table : list (list byte * Message)) (bz : list byte)
  : Message + Error :=
  match table with
  | [] => inr (errors_New "unrecognized bytes")
  | (key, msg) :: rest =>
      if list_byte_eqb key bz then inl msg else table_decode rest bz
  end.

(** The encoding is a tag for the message type followed by the low byte of
    the chunk index, where the message has one. *)
Definition low_byte (z : Z) : byte :=
  match Byte.of_nat (Z.to_nat (z mod 256)) with
  | Some b => b
  | None => x00
  end.

Definition tag_encode (msg : Message) : list byte :=
  match msg with
  | ListSnapshotsRequest _ => [x01]
  | ListSnapshotsResponse _ => [x02]
  | GetSnapshotChunkRequest None => [x03]
  | GetSnapshotChunkRequest (Some m) =>
      [x03; low_byte (GetSnapshotChunkRequestMessage.Chunk m)]
  | GetSnapshotChunkResponse None => [x04]
  | GetSnapshotChunkResponse (Some m) =>
      [x04; low_byte (SnapshotChunk.Chunk
                        (GetSnapshotChunkResponseMessage.Chunk m))]
  end.

Definition table_imports (table : list (list byte * Message)) : Imports :=
  {| UnmarshalBinaryBare := table_decode table;
     MustMarshalBinaryBare := tag_encode;
     sort_Slice := insertion_sort |}.

(** What [Receive] needs of [sort.Slice] with its comparator: the result
    holds the same snapshots, and no snapshot comes before one that the
    comparator puts strictly first. *)
Definition sorts_snapshots (imports : Imports) : Prop :=
  forall l,
    Permutation l (sort_Slice snapshot_less l)
    /\ StronglySorted (fun a b => snapshot_less a b = true)
         (sort_Slice snapshot_less l).

(** ** Scenarios *)

(** The concrete peers, snapshots, messages and application of the
    specification's end-to-end scenarios, on the stand-in codec. *)
Module Scenario.

Definition P : Peer := "P".

Definition snapshot (height format chunks : Z) : Snapshot.t :=
  {| Snapshot.Height := height; Snapshot.Format := format;
     Snapshot.Chunks := chunks; Snapshot.Metadata := [] |}.

Definition chunk (height format index : Z) (data checksum : list byte)
  : SnapshotChunk.t :=
  {| SnapshotChunk.Height := height; SnapshotChunk.Chunk := index;
     SnapshotChunk.Format := format; SnapshotChunk.Data := data;
     SnapshotChunk.Checksum := checksum |}.

Definition zeros : list byte := repeat x00 sha1_Size.
Definition ones : list byte := repeat xff sha1_Size.

Definition list_request : Message :=
  ListSnapshotsRequest (Some ListSnapshotsRequestMessage.mk).

(** Scenario S1: one snapshot of two chunks. *)
Definition single : Message :=
  ListSnapshotsResponse
    (Some {| ListSnapshotsResponseMessage.Snapshots := [snapshot 10 1 2] |}).

(** Scenario S2: three candidates. *)
Definition candidates : ListSnapshotsResponseMessage.t :=
  {| ListSnapshotsResponseMessage.Snapshots :=
       [snapshot 5 1 2; snapshot 10 1 2; snapshot 10 2 2] |}.

(** Scenario S4: a chunk request with height 0. *)
Definition bad_request : Message :=
  GetSnapshotChunkRequest
    (Some {| GetSnapshotChunkRequestMessage.Height := 0;
             GetSnapshotChunkRequestMessage.Format := 1;
             GetSnapshotChunkRequestMessage.Chunk := 1 |}).

Definition good_request : Message :=
  GetSnapshotChunkRequest
    (Some {| GetSnapshotChunkRequestMessage.Height := 10;
             GetSnapshotChunkRequestMessage.Format := 1;
             GetSnapshotChunkRequestMessage.Chunk := 1 |}).

Definition chunk_response (index : Z) (checksum : list byte)
  : GetSnapshotChunkResponseMessage.t :=
  {| GetSnapshotChunkResponseMessage.Chunk :=
       chunk 10 1 index [x2a] checksum |}.

Definition table : list (list byte * Message) :=
  [ ([x01], list_request);
    ([x02; x00],
     ListSnapshotsResponse
       (Some {| ListSnapshotsResponseMessage.Snapshots := [] |}));
    ([x02; x01], single);
    ([x02; x03], ListSnapshotsResponse (Some candidates));
    ([x03; x00], bad_request);
    ([x03; x01], good_request);
    ([x04; x01], GetSnapshotChunkResponse (Some (chunk_response 1 zeros)));
    ([x04; x02], GetSnapshotChunkResponse (Some (chunk_response 2 zeros)));
    ([x04; xff], GetSnapshotChunkResponse (Some (chunk_response 1 ones))) ].

Definition imports : Imports := table_imports table.

(** The application rejects format 2 at height 10 and accepts every other
    snapshot; it applies every chunk, and serves one snapshot. *)
Definition decision (s : Snapshot.t) : OfferResult :=
  if (Snapshot.Height s =? 10) && (Snapshot.Format s =? 2)
  then RejectFormat else Accept.

Definition app : Application :=
  {| on_list_snapshots := fun _ =>
       inl {| types.Snapshots := [types.mkSnapshot 10 1 2 []] |};
     on_load_chunk := fun _ req =>
       inl {| types.Chunk :=
                Some (types.mkSnapshotChunk (types.req_Height req)
                        (types.req_Format req) (types.req_Chunk req)
                        [x2a] zeros) |};
     on_offer_snapshot := fun _ s => inl (decision s);
     on_apply_chunk := fun _ _ _ _ _ => inl true |}.

(** An application whose [offer_snapshot] call fails for format 2 at height
    10, and which accepts every other snapshot. *)
Definition failing_app : Application :=
  {| on_list_snapshots := on_list_snapshots (Application := app);
     on_load_chunk := on_load_chunk (Application := app);
     on_offer_snapshot := fun _ s =>
       if (Snapshot.Height s =? 10) && (Snapshot.Format s =? 2)
       then inr (errors_New "app down") else inl Accept;
     on_apply_chunk := fun _ _ _ _ _ => inl true |}.

(** A reactor in a given state of the sync, with nothing recorded yet. *)
Definition reactor (enabled : bool) (s : SpecSync.t)
  : Reactor (list AppCall) SpecSync.t :=
  {| running := true; config := {| Enabled := enabled |}; conn := [];
     sync := s; wire := [] |}.

Definition restoring (n : Z) : SpecSync.t :=
  SpecSync.Active (snapshot 10 1 2) n.

(** Scenario S1 as inbound traffic: the list, then both chunks. *)
Definition restore_run : list Delivery :=
  [ {| chID := MetadataChannel; src := P; msgBytes := [x02; x01] |};
    {| chID := ChunkChannel; src := P; msgBytes := [x04; x01] |};
    {| chID := ChunkChannel; src := P; msgBytes := [x04; x02] |} ].

(** More than [maxMsgSize] bytes. *)
Definition oversize : list byte := repeat x00 (Z.to_nat 65000001).

End Scenario.

(** * The state (state/state.go) *)

Module state.

(** An [error]: built by [errors.New], or by [fmt.Errorf] around the error
    it reports. *)
Inductive error : Type :=
| errors_New (text : string)
| fmt_Errorf (format : string) (cause : error).

(** The types of other packages that [State] and its functions mention, as
    far as they stay opaque here, each with its zero value where the file
    builds one. *)
Class Types : Type := {
  types_BlockID : Type;
  BlockID_zero : types_BlockID;
  tmproto_BlockID : Type;
  time_Time : Type;
  Time_zero : time_Time;
  tmproto_BlockParams : Type;
  BlockParams_zero : tmproto_BlockParams;
  tmproto_EvidenceParams : Type;
  EvidenceParams_zero : tmproto_EvidenceParams;
  tmproto_ValidatorParams : Type;
  ValidatorParams_zero : tmproto_ValidatorParams;
  types_ValidatorSet : Type;
  ValidatorSet_zero : types_ValidatorSet;
  tmproto_ValidatorSet : Type;
  types_Validator : Type;
  crypto_PubKey : Type;
  types_Tx : Type;
  types_Evidence : Type;
  types_Block : Type;
  types_PartSet : Type
}.

Module protoversion.

Record Consensus : Type := {
  Block : Z;
  App : Z
}.

End protoversion.

Module tmproto.

Record ConsensusParams `{Types} : Type := {
  Block : tmproto_BlockParams;
  Evidence : tmproto_EvidenceParams;
  Validator : tmproto_ValidatorParams
}.

End tmproto.

Module tmstate.

Record Version : Type := {
  Consensus : protoversion.Consensus;
  Software : string
}.

(** The protobuf form of the state.  The three validator sets are
    pointers. *)
Record State `{Types} : Type := {
  Version_ : Version;
  ChainID : string;
  LastBlockHeight : Z;
  LastBlockID : tmproto_BlockID;
  LastBlockTime : time_Time;
  NextValidators : option tmproto_ValidatorSet;
  Validators : option tmproto_ValidatorSet;
  LastValidators : option tmproto_ValidatorSet;
  LastHeightValidatorsChanged : Z;
  ConsensusParams : tmproto.ConsensusParams;
  LastHeightConsensusParamsChanged : Z;
  LastResultsHash : list byte;
  AppHash : list byte
}.

End tmstate.

Module tmtime.

Record WeightedTime `{Types} : Type := {
  Time : time_Time;
  Weight : Z
}.

End tmtime.

Module types.

Record CommitSig `{Types} : Type := {
  BlockIDFlag : byte;
  ValidatorAddress : list byte;
  Timestamp : time_Time;
  Signature : list byte
}.

Record Commit `{Types} : Type := {
  Height : Z;
  Round : Z;
  BlockID : types_BlockID;
  Signatures : list CommitSig
}.

Record GenesisValidator `{Types} : Type := {
  Address : list byte;
  PubKey : crypto_PubKey;
  Power : Z;
  Name : string
}.

(** [ConsensusParams] is a pointer; [Validators] is a slice, [None] when
    it is [nil]. *)
Record GenesisDoc `{Types} : Type := {
  GenesisTime : time_Time;
  ChainID : string;
  ConsensusParams : option tmproto.ConsensusParams;
  Validators : option (list GenesisValidator);
  AppHash : list byte;
  AppState : list byte
}.

End types.

(** The functions of other packages that the file calls, each taken where
    it returns.  A function that takes or returns a pointer takes or
    returns an [option]; one that returns a value and an error returns
    both; [ValidateAndComplete], which writes through its receiver, also
    returns what the receiver points to afterwards.  [GetByAddress] and
    [Hash] read the validator set they are called on: they take the set,
    and a call on a [nil] pointer is a panic of the caller. *)
Class Imports `{Types} : Type := {
  version_BlockProtocol : Z;
  version_TMCoreSemVer : string;
  BlockID_ToProto : types_BlockID -> option tmproto_BlockID;
  ValidatorSet_ToProto :
    types_ValidatorSet -> option tmproto_ValidatorSet * option error;
  ValidatorSet_FromProto :
    option tmproto_ValidatorSet -> types_ValidatorSet * option error;
  ValidatorSet_GetByAddress :
    types_ValidatorSet -> list byte ->
    Z * option types_Validator * bool;
  ValidatorSet_Hash : types_ValidatorSet -> list byte;
  Validator_VotingPower : types_Validator -> Z;
  CommitSig_Absent : types.CommitSig -> bool;
  tmtime_WeightedMedian :
    list (option tmtime.WeightedTime) -> Z -> time_Time;
  types_MakeBlock :
    Z -> list types_Tx -> option types.Commit -> list types_Evidence ->
    types_Block;
  types_HashConsensusParams : tmproto.ConsensusParams -> list byte;
  types_BlockPartSizeBytes : Z;
  Header_Populate :
    types_Block -> protoversion.Consensus -> string -> time_Time ->
    types_BlockID -> list byte -> list byte -> list byte -> list byte ->
    list byte -> list byte -> types_Block;
  Block_MakePartSet : types_Block -> Z -> types_PartSet;
  ioutil_ReadFile : string -> list byte * option error;
  types_GenesisDocFromJSON : list byte -> option types.GenesisDoc * option error;
  GenesisDoc_ValidateAndComplete :
    option types.GenesisDoc -> option error * option types.GenesisDoc;
  types_NewValidator : crypto_PubKey -> Z -> types_Validator;
  types_NewValidatorSet : option (list types_Validator) -> types_ValidatorSet;
  ValidatorSet_CopyIncrementProposerPriority :
    types_ValidatorSet -> Z -> types_ValidatorSet
}.

Section State.

Context {tys : Types}.
Context {imports : Imports}.

Definition initStateVersion : tmstate.Version :=
  {| tmstate.Consensus :=
       {| protoversion.Block := version_BlockProtocol;
          protoversion.App := 0 |};
     tmstate.Software := version_TMCoreSemVer |}.

Record State : Type := mkState {
  Version : tmstate.Version;
  ChainID : string;
  LastBlockHeight : Z;
  LastBlockID : types_BlockID;
  LastBlockTime : time_Time;
  NextValidators : option types_ValidatorSet;
  Validators : option types_ValidatorSet;
  LastValidators : option types_ValidatorSet;
  LastHeightValidatorsChanged : Z;
  ConsensusParams : tmproto.ConsensusParams;
  LastHeightConsensusParamsChanged : Z;
  LastResultsHash : list byte;
  AppHash : list byte
}.

(** [State{}] *)
Definition State_zero : State :=
  {| Version :=
       {| tmstate.Consensus :=
            {| protoversion.Block := 0; protoversion.App := 0 |};
          tmstate.Software := "" |};
     ChainID := "";
     LastBlockHeight := 0;
     LastBlockID := BlockID_zero;
     LastBlockTime := Time_zero;
     NextValidators := None;
     Validators := None;
     LastValidators := None;
     LastHeightValidatorsChanged := 0;
     ConsensusParams :=
       {| tmproto.Block := BlockParams_zero;
          tmproto.Evidence := EvidenceParams_zero;
          tmproto.Validator := ValidatorParams_zero |};
     LastHeightConsensusParamsChanged := 0;
     LastResultsHash := [];
     AppHash := [] |}.

Definition IsEmpty (state : State) : bool :=
  match Validators state with None => true | Some _ => false end.

Definition set_Validators (v : option types_ValidatorSet) (state : State)
  : State :=
  mkState (Version state) (ChainID state) (LastBlockHeight state)
    (LastBlockID state) (LastBlockTime state) (NextValidators state) v
    (LastValidators state) (LastHeightValidatorsChanged state)
    (ConsensusParams state) (LastHeightConsensusParamsChanged state)
    (LastResultsHash state) (AppHash state).

Definition set_NextValidators (v : option types_ValidatorSet) (state : State)
  : State :=
  mkState (Version state) (ChainID state) (LastBlockHeight state)
    (LastBlockID state) (LastBlockTime state) v (Validators state)
    (LastValidators state) (LastHeightValidatorsChanged state)
    (ConsensusParams state) (LastHeightConsensusParamsChanged state)
    (LastResultsHash state) (AppHash state).

Definition set_LastValidators (v : option types_ValidatorSet) (state : State)
  : State :=
  mkState (Version state) (ChainID state) (LastBlockHeight state)
    (LastBlockID state) (LastBlockTime state) (NextValidators state)
    (Validators state) v (LastHeightValidatorsChanged state)
    (ConsensusParams state) (LastHeightConsensusParamsChanged state)
    (LastResultsHash state) (AppHash state).

(** One of the three blocks of [ToProto] that deal with a validator set:
    a [nil] set is replaced, in the state, by a pointer to the zero set and
    leaves the protobuf field [nil]; any other set is converted.  The
    result is the field of the state afterwards with the protobuf field,
    or the error of the conversion. *)
Definition validators_to_proto (field : option types_ValidatorSet)
  : option types_ValidatorSet * option tmproto_ValidatorSet + error :=
  match field with
  | None => inl (Some ValidatorSet_zero, None)
  | Some v =>
      match ValidatorSet_ToProto v with
      | (_, Some err) => inr err
      | (vals, None) => inl (Some v, vals)
      end
  end.

(** [ToProto] has a pointer receiver and writes through it: the result is
    paired with the receiver afterwards. *)
Definition ToProto (state : option State)
  : Outcome (option tmstate.State * option error) * option State :=
  match state with
  | None => (Returned (None, Some (errors_New "state is nil")), None)
  | Some st =>
      match BlockID_ToProto (LastBlockID st) with
      | None => (Panicked nil_dereference, Some st)
      | Some bip =>
          match validators_to_proto (Validators st) with
          | inr err => (Returned (None, Some err), Some st)
          | inl (field, vals) =>
              let st := set_Validators field st in
              match validators_to_proto (NextValidators st) with
              | inr err => (Returned (None, Some err), Some st)
              | inl (field, nVals) =>
                  let st := set_NextValidators field st in
                  match validators_to_proto (LastValidators st) with
                  | inr err => (Returned (None, Some err), Some st)
                  | inl (field, lVals) =>
                      let st := set_LastValidators field st in
                      (Returned
                         (Some
                            {| tmstate.Version_ := Version st;
                               tmstate.ChainID := ChainID st;
                               tmstate.LastBlockHeight := LastBlockHeight st;
                               tmstate.LastBlockID := bip;
                               tmstate.LastBlockTime := LastBlockTime st;
                               tmstate.NextValidators := nVals;
                               tmstate.Validators := vals;
                               tmstate.LastValidators := lVals;
                               tmstate.LastHeightValidatorsChanged :=
                                 LastHeightValidatorsChanged st;
                               tmstate.ConsensusParams := ConsensusParams st;
                               tmstate.LastHeightConsensusParamsChanged :=
                                 LastHeightConsensusParamsChanged st;
                               tmstate.LastResultsHash := LastResultsHash st;
                               tmstate.AppHash := AppHash st |},
                          None),
                       Some st)
                  end
              end
          end
      end
  end.

(** [FromProto]: the error, with the receiver afterwards.  The first three
    fields are written before the validator sets are converted. *)
Definition FromProto (state : option State) (pb : option tmstate.State)
  : Outcome (option error) * option State :=
  match pb with
  | None => (Returned (Some (errors_New "nil State")), state)
  | Some pb =>
      match state with
      | None => (Panicked nil_dereference, None)
      | Some st =>
          let st :=
            mkState (tmstate.Version_ pb) (tmstate.ChainID pb)
              (tmstate.LastBlockHeight pb) (LastBlockID st)
              (LastBlockTime st) (NextValidators st) (Validators st)
              (LastValidators st) (LastHeightValidatorsChanged st)
              (ConsensusParams st) (LastHeightConsensusParamsChanged st)
              (LastResultsHash st) (AppHash st) in
          match ValidatorSet_FromProto (tmstate.Validators pb) with
          | (_, Some err) => (Returned (Some err), Some st)
          | (vals, None) =>
              match ValidatorSet_FromProto (tmstate.NextValidators pb) with
              | (_, Some err) => (Returned (Some err), Some st)
              | (nVals, None) =>
                  match ValidatorSet_FromProto (tmstate.LastValidators pb)
                  with
                  | (_, Some err) => (Returned (Some err), Some st)
                  | (lVals, None) =>
                      (Returned None,
                       Some
                         (mkState (Version st) (ChainID st)
                            (LastBlockHeight st) (LastBlockID st)
                            (LastBlockTime st) (Some nVals) (Some vals)
                            (Some lVals)
                            (tmstate.LastHeightValidatorsChanged pb)
                            (tmstate.ConsensusParams pb)
                            (tmstate.LastHeightConsensusParamsChanged pb)
                            (tmstate.LastResultsHash pb)
                            (tmstate.AppHash pb)))
                  end
              end
          end
      end
  end.

(** [int64] arithmetic wraps around. *)
Definition int64 (z : Z) : Z := (z + 2 ^ 63) mod 2 ^ 64 - 2 ^ 63.

Definition keep {A B : Type} (a : A) (r : Outcome (list A * B))
  : Outcome (list A * B) :=
  match r with
  | Returned (l, b) => Returned (a :: l, b)
  | Panicked v => Panicked v
  end.

(** The loop of [MedianTime] from some signature on: the entries of
    [weightedTimes] from there on ([nil] where the loop assigns nothing)
    and the final [totalVotingPower].  [validators.GetByAddress] is called
    for every signature that is not absent, and panics when [validators] is
    [nil]. *)
Fixpoint weigh (validators : option types_ValidatorSet)
  (signatures : list types.CommitSig) (totalVotingPower : Z)
  : Outcome (list (option tmtime.WeightedTime) * Z) :=
  match signatures with
  | [] => Returned ([], totalVotingPower)
  | commitSig :: rest =>
      if CommitSig_Absent commitSig
      then keep None (weigh validators rest totalVotingPower)
      else
        match validators with
        | None => Panicked nil_dereference
        | Some set =>
            match ValidatorSet_GetByAddress set
                    (types.ValidatorAddress commitSig) with
            | (_, validator, true) =>
                match validator with
                | None => Panicked nil_dereference
                | Some validator =>
                    keep
                      (Some {| tmtime.Time := types.Timestamp commitSig;
                               tmtime.Weight :=
                                 Validator_VotingPower validator |})
                      (weigh validators rest
                         (int64 (totalVotingPower
                                 + Validator_VotingPower validator)))
                end
            | (_, _, false) =>
                keep None (weigh validators rest totalVotingPower)
            end
        end
  end.

Definition MedianTime (commit : option types.Commit)
  (validators : option types_ValidatorSet) : Outcome time_Time :=
  match commit with
  | None => Panicked nil_dereference
  | Some commit =>
      match weigh validators (types.Signatures commit) 0 with
      | Returned (weightedTimes, totalVotingPower) =>
          Returned (tmtime_WeightedMedian weightedTimes totalVotingPower)
      | Panicked v => Panicked v
      end
  end.

(** [MakeBlock]: the time first, then the arguments of [Populate] in
    order; [state.Validators.Hash()] and [state.NextValidators.Hash()]
    panic on a [nil] validator set. *)
Definition MakeBlock (state : State) (height : Z) (txs : list types_Tx)
  (commit : option types.Commit) (evidence : list types_Evidence)
  (proposerAddress : list byte) : Outcome (types_Block * types_PartSet) :=
  let block := types_MakeBlock height txs commit evidence in
  match
    (if height =? 1 then Returned (LastBlockTime state)
     else MedianTime commit (LastValidators state))
  with
  | Panicked v => Panicked v
  | Returned timestamp =>
      match Validators state with
      | None => Panicked nil_dereference
      | Some validators =>
          match NextValidators state with
          | None => Panicked nil_dereference
          | Some nextValidators =>
              let block :=
                Header_Populate block
                  (tmstate.Consensus (Version state)) (ChainID state)
                  timestamp (LastBlockID state)
                  (ValidatorSet_Hash validators)
                  (ValidatorSet_Hash nextValidators)
                  (types_HashConsensusParams (ConsensusParams state))
                  (AppHash state) (LastResultsHash state)
                  proposerAddress in
              Returned
                (block, Block_MakePartSet block types_BlockPartSizeBytes)
          end
      end
  end.

Definition MakeGenesisDocFromFile (genDocFile : string)
  : option types.GenesisDoc * option error :=
  match ioutil_ReadFile genDocFile with
  | (_, Some err) =>
      (None, Some (fmt_Errorf "couldn't read GenesisDoc file: %v" err))
  | (genDocJSON, None) =>
      match types_GenesisDocFromJSON genDocJSON with
      | (_, Some err) =>
          (None, Some (fmt_Errorf "error reading GenesisDoc: %v" err))
      | (genDoc, None) => (genDoc, None)
      end
  end.

(** [MakeGenesisState] takes a pointer and [ValidateAndComplete] writes
    through it: every field is read from the document as completed. *)
Definition MakeGenesisState (genDoc : option types.GenesisDoc)
  : Outcome (State * option error) :=
  match GenesisDoc_ValidateAndComplete genDoc with
  | (Some err, _) =>
      Returned (State_zero,
                Some (fmt_Errorf "error in genesis file: %v" err))
  | (None, None) => Panicked nil_dereference
  | (None, Some genDoc) =>
          let '(validatorSet, nextValidatorSet) :=
            match types.Validators genDoc with
            | None =>
                (types_NewValidatorSet None, types_NewValidatorSet None)
            | Some vals =>
                let validators :=
                  map (fun val =>
                         types_NewValidator (types.PubKey val)
                           (types.Power val))
                      vals in
                (types_NewValidatorSet (Some validators),
                 ValidatorSet_CopyIncrementProposerPriority
                   (types_NewValidatorSet (Some validators)) 1)
            end in
          match types.ConsensusParams genDoc with
          | None => Panicked nil_dereference
          | Some params =>
              let protoParam :=
                {| tmproto.Block := tmproto.Block params;
                   tmproto.Evidence := tmproto.Evidence params;
                   tmproto.Validator := tmproto.Validator params |} in
              Returned
                ({| Version := initStateVersion;
                    ChainID := types.ChainID genDoc;
                    LastBlockHeight := 0;
                    LastBlockID := BlockID_zero;
                    LastBlockTime := types.GenesisTime genDoc;
                    NextValidators := Some nextValidatorSet;
                    Validators := Some validatorSet;
                    LastValidators := None;
                    LastHeightValidatorsChanged := 1;
                    ConsensusParams := protoParam;
                    LastHeightConsensusParamsChanged := 1;
                    LastResultsHash := [];
                    AppHash := types.AppHash genDoc |},
                 None)
          end
  end.

Definition MakeGenesisStateFromFile (genDocFile : string)
  : Outcome (State * option error) :=
  match MakeGenesisDocFromFile genDocFile with
  | (_, Some err) => Returned (State_zero, Some err)
  | (genDoc, None) => MakeGenesisState genDoc
  end.

(** *** Vocabulary for the properties *)

(** A validator set field after [ToProto]: a [nil] one has been filled. *)
Definition filled (field : option types_ValidatorSet)
  : option types_ValidatorSet :=
  match field with
  | None => Some ValidatorSet_zero
  | Some v => Some v
  end.

(** The protobuf field [ToProto] writes for a validator set field. *)
Definition proto_of (field : option types_ValidatorSet)
  : option tmproto_ValidatorSet :=
  match field with
  | None => None
  | Some v => fst (ValidatorSet_ToProto v)
  end.

(** The conversion of a validator set field raises no error. *)
Definition converts (field : option types_ValidatorSet) : Prop :=
  match field with
  | None => True
  | Some v => snd (ValidatorSet_ToProto v) = None
  end.

(** A validator set that comes back from its protobuf form. *)
Definition round_trips (v : types_ValidatorSet) : Prop :=
  snd (ValidatorSet_ToProto v) = None
  /\ ValidatorSet_FromProto (fst (ValidatorSet_ToProto v)) = (v, None).

(** The vote a signature contributes to the median: none if it is absent
    or its address is not in the validator set. *)
Definition weighted_entry (validators : option types_ValidatorSet)
  (commitSig : types.CommitSig) : option tmtime.WeightedTime :=
  if CommitSig_Absent commitSig then None
  else
    match validators with
    | None => None
    | Some set =>
        match ValidatorSet_GetByAddress set
                (types.ValidatorAddress commitSig) with
        | (_, Some validator, true) =>
            Some {| tmtime.Time := types.Timestamp commitSig;
                    tmtime.Weight := Validator_VotingPower validator |}
        | _ => None
        end
    end.

Fixpoint weight_sum (weightedTimes : list (option tmtime.WeightedTime)) : Z :=
  match weightedTimes with
  | [] => 0
  | Some w :: rest => tmtime.Weight w + weight_sum rest
  | None :: rest => weight_sum rest
  end.

(** A signature that [MedianTime] passes over: it is absent, or the
    validator set is there and does not know its address. *)
Definition ignored (validators : option types_ValidatorSet)
  (commitSig : types.CommitSig) : Prop :=
  CommitSig_Absent commitSig = true
  \/ exists set,
       validators = Some set
       /\ snd (ValidatorSet_GetByAddress set
                 (types.ValidatorAddress commitSig)) = false.

(** Two signatures that [MedianTime] cannot tell apart: both passed over,
    or both counted with the same address and timestamp. *)
Definition same_vote (validators : option types_ValidatorSet)
  (a b : types.CommitSig) : Prop :=
  (ignored validators a /\ ignored validators b)
  \/ (CommitSig_Absent a = false /\ CommitSig_Absent b = false
      /\ types.ValidatorAddress a = types.ValidatorAddress b
      /\ types.Timestamp a = types.Timestamp b).

(** The hash of a validator set field that is there (and no bytes for one
    that is not, where [MakeBlock] panics and makes no block). *)
Definition hash_of (field : option types_ValidatorSet) : list byte :=
  match field with
  | Some set => ValidatorSet_Hash set
  | None => []
  end.

(** The block of [MakeBlock] once its header is populated with the time
    [timestamp], and its part set. *)
Definition block_at (state : State) (height : Z) (txs : list types_Tx)
  (commit : option types.Commit) (evidence : list types_Evidence)
  (proposerAddress : list byte) (timestamp : time_Time)
  : types_Block * types_PartSet :=
  let block :=
    Header_Populate (types_MakeBlock height txs commit evidence)
      (tmstate.Consensus (Version state)) (ChainID state)
      timestamp (LastBlockID state)
      (hash_of (Validators state))
      (hash_of (NextValidators state))
      (types_HashConsensusParams (ConsensusParams state))
      (AppHash state) (LastResultsHash state)
      proposerAddress in
  (block, Block_MakePartSet block types_BlockPartSizeBytes).

End State.

End state.

(** ** An instance of the state's imports *)

(** Small concrete types and functions to run the state's functions on: a
    validator set is a list of (address, voting power), times are numbers,
    and the conversions to and from protobuf copy. *)
Module StateExample.

Import state.

Definition example_types : Types :=
  {| types_BlockID := list byte;
     BlockID_zero := [];
     tmproto_BlockID := list byte;
     time_Time := Z;
     Time_zero := 0;
     tmproto_BlockParams := Z;
     BlockParams_zero := 0;
     tmproto_EvidenceParams := Z;
     EvidenceParams_zero := 0;
     tmproto_ValidatorParams := Z;
     ValidatorParams_zero := 0;
     types_ValidatorSet := list (list byte * Z);
     ValidatorSet_zero := [];
     tmproto_ValidatorSet := list (list byte * Z);
     types_Validator := list byte * Z;
     crypto_PubKey := list byte;
     types_Tx := list byte;
     types_Evidence := list byte;
     types_Block := Z * Z;
     types_PartSet := Z |}.

#[local] Existing Instance example_types.

Fixpoint lookup (set : list (list byte * Z)) (address : list byte) (i : Z)
  : Z * option (list byte * Z) * bool :=
  match set with
  | [] => (-1, None, false)
  | (a, power) :: rest =>
      if list_byte_eqb a address then (i, Some (a, power), true)
      else lookup rest address (i + 1)
  end.

Definition earlier (a b : option tmtime.WeightedTime) : bool :=
  match a, b with
  | None, _ => false
  | Some _, None => true
  | Some a, Some b => tmtime.Time a <? tmtime.Time b
  end.

Fixpoint pick (weightedTimes : list (option tmtime.WeightedTime))
  (median : Z) : Z :=
  match weightedTimes with
  | [] => 0
  | None :: rest => pick rest median
  | Some w :: rest =>
      if median <=? tmtime.Weight w then tmtime.Time w
      else pick rest (median - tmtime.Weight w)
  end.

(** The time at which the weights, taken in order of time, reach half the
    total. *)
Definition weighted_median (weightedTimes : list (option tmtime.WeightedTime))
  (totalVotingPower : Z) : Z :=
  pick (insertion_sort earlier weightedTimes) (Z.quot totalVotingPower 2).

Definition complete (doc : option types.GenesisDoc)
  : option error * option types.GenesisDoc :=
  match doc with
  | None => (Some (errors_New "nil document"), None)
  | Some d =>
      if (String.length (types.ChainID d) =? 0)%nat
      then (Some (errors_New "genesis doc must include non-empty chain_id"),
            Some d)
      else
        (None,
         Some {| types.GenesisTime :=
                   if types.GenesisTime d =? 0 then 1700000000
                   else types.GenesisTime d;
                 types.ChainID := types.ChainID d;
                 types.ConsensusParams :=
                   match types.ConsensusParams d with
                   | None =>
                       Some {| tmproto.Block := 1; tmproto.Evidence := 1;
                               tmproto.Validator := 1 |}
                   | Some params => Some params
                   end;
                 types.Validators := types.Validators d;
                 types.AppHash := types.AppHash d;
                 types.AppState := types.AppState d |})
  end.

Definition genesis_doc (chain : string) : types.GenesisDoc :=
  {| types.GenesisTime := 0;
     types.ChainID := chain;
     types.ConsensusParams := None;
     types.Validators :=
       Some [ {| types.Address := [x0a]; types.PubKey := [x0a];
                 types.Power := 10; types.Name := "a" |} ];
     types.AppHash := [];
     types.AppState := [] |}.

Definition example_imports : Imports :=
  {| version_BlockProtocol := 10;
     version_TMCoreSemVer := "0.33";
     BlockID_ToProto := fun id => Some id;
     ValidatorSet_ToProto := fun v => (Some v, None);
     ValidatorSet_FromProto := fun pv =>
       match pv with
       | Some v => (v, None)
       | None => ([], Some (errors_New "nil validator set"))
       end;
     ValidatorSet_GetByAddress := fun set address => lookup set address 0;
     ValidatorSet_Hash := fun _ => [];
     Validator_VotingPower := snd;
     CommitSig_Absent := fun sig => Byte.eqb (types.BlockIDFlag sig) x01;
     tmtime_WeightedMedian := weighted_median;
     types_MakeBlock := fun height _ _ _ => (height, 0);
     types_HashConsensusParams := fun _ => [];
     types_BlockPartSizeBytes := 65536;
     Header_Populate := fun block _ _ timestamp _ _ _ _ _ _ _ =>
       (fst block, timestamp);
     Block_MakePartSet := fun _ size => size;
     ioutil_ReadFile := fun name =>
       if String.eqb name "genesis.json" then ([x7b], None)
       else if String.eqb name "unnamed.json" then ([x5b], None)
       else ([], Some (errors_New "no such file"));
     types_GenesisDocFromJSON := fun json =>
       if list_byte_eqb json [x7b] then (Some (genesis_doc "chain"), None)
       else if list_byte_eqb json [x5b] then (Some (genesis_doc ""), None)
       else (None, Some (errors_New "invalid character"));
     GenesisDoc_ValidateAndComplete := complete;
     types_NewValidator := fun key power => (key, power);
     types_NewValidatorSet := fun validators =>
       match validators with Some l => l | None => [] end;
     ValidatorSet_CopyIncrementProposerPriority := fun set _ => set |}.

#[local] Existing Instance example_imports.

Definition validators : list (list byte * Z) :=
  [([x0a], 10); ([x0b], 20); ([x0c], 30)].

(** A state at height 5 with its three validator sets. *)
Definition at_height_5 : State :=
  {| Version := initStateVersion;
     ChainID := "chain";
     LastBlockHeight := 5;
     LastBlockID := [x05];
     LastBlockTime := 500;
     NextValidators := Some validators;
     Validators := Some validators;
     LastValidators := Some validators;
     LastHeightValidatorsChanged := 1;
     ConsensusParams :=
       {| tmproto.Block := 1; tmproto.Evidence := 1;
          tmproto.Validator := 1 |};
     LastHeightConsensusParamsChanged := 1;
     LastResultsHash := [x01];
     AppHash := [x02] |}.

Definition vote (flag : byte) (address : list byte) (time : Z)
  (signature : list byte) : types.CommitSig :=
  {| types.BlockIDFlag := flag; types.ValidatorAddress := address;
     types.Timestamp := time; types.Signature := signature |}.

Definition commit_of (signatures : list types.CommitSig) : types.Commit :=
  {| types.Height := 5; types.Round := 0; types.BlockID := [x05];
     types.Signatures := signatures |}.

(** Validator a votes at 100, b is absent, c votes at 300, and d is no
    validator. *)
Definition commit : types.Commit :=
  commit_of [ vote x02 [x0a] 100 [x01]; vote x01 [x0b] 0 [];
              vote x02 [x0c] 300 [x03]; vote x02 [x0d] 999 [x04] ].

(** The same votes, with other contents where they do not count. *)
Definition commit' : types.Commit :=
  commit_of [ vote x02 [x0a] 100 [xff]; vote x01 [x0e] 777 [xee];
              vote x03 [x0c] 300 []; vote x01 [x0d] 1 [] ].

End StateExample.

(** The longest message [decodeMsg] hands to the codec. *)
Definition largest_message : list byte := repeat x00 (Z.to_nat 65000000).

(** ** Vocabulary for the properties *)

(** How many times the loop of [AddPeer] finds the peer running before it
    first finds it stopped. *)
Fixpoint rounds (isRunning : list bool) : nat :=
  match isRunning with
  | true :: later => S (rounds later)
  | _ => 0%nat
  end.

(** The (channel, message type) pairs that the switches of [Receive] have a
    case for. *)
Definition handles (chID : byte) (msg : Message) : bool :=
  match msg with
  | ListSnapshotsRequest _ | ListSnapshotsResponse _ =>
      Byte.eqb chID MetadataChannel
  | GetSnapshotChunkRequest _ | GetSnapshotChunkResponse _ =>
      negb (Byte.eqb chID MetadataChannel) && Byte.eqb chID ChunkChannel
  end.

(** The errors after which the offer loop goes on to the next snapshot. *)
Definition is_rejection (err : Error) : bool :=
  match err with
  | ErrSnapshotRejected
  | ErrSnapshotRejectedFormat
  | ErrSnapshotRejectedHeight => true
  | _ => false
  end.

(** The application's answers to the snapshots of a list offered one after
    the other, the first of them after [calls]. *)
Fixpoint offers {application : Application} (calls : list AppCall)
  (snapshots : list Snapshot.t) : list (Snapshot.t * (OfferResult + Error)) :=
  match snapshots with
  | [] => []
  | snapshot :: rest =>
      (snapshot, on_offer_snapshot calls snapshot)
      :: offers (calls ++ [offer_snapshot_call snapshot]) rest
  end.

Definition accepted (answer : OfferResult + Error) : bool :=
  match answer with inl Accept => true | _ => false end.

(** An offer fails when the call ends in an error that is none of the three
    rejections. *)
Definition failed (answer : OfferResult + Error) : bool :=
  match answer with
  | inl _ => false
  | inr err => negb (is_rejection err)
  end.

(** Some offer of the list fails before any is accepted. *)
Fixpoint fails_first (answers : list (Snapshot.t * (OfferResult + Error)))
  : bool :=
  match answers with
  | [] => false
  | (_, answer) :: rest =>
      failed answer || (negb (accepted answer) && fails_first rest)
  end.

(** The chunk request that [Receive] builds from [NextChunk]. *)
Definition request_for (next : Z * Z * Z) : Message :=
  let '(height, format, chunk) := next in
  GetSnapshotChunkRequest
    (Some {| GetSnapshotChunkRequestMessage.Height := height;
             GetSnapshotChunkRequestMessage.Format := format;
             GetSnapshotChunkRequestMessage.Chunk := chunk |}).

(** * Properties of the reactor *)

(** ** Validation *)

Lemma validate_each_none (snapshots : list Snapshot.t) :
  ListSnapshotsResponseMessage.validate_each snapshots = None
  <-> Forall (fun s => Snapshot.Height s <> 0) snapshots.
Proof.
  induction snapshots as [|s rest IH]; simpl.
  - split; [constructor | reflexivity].
  - destruct (Z.eqb_spec (Snapshot.Height s) 0) as [E|E].
    + split; [discriminate | intros F; inversion F; contradiction].
    + rewrite IH. split; [intros F; constructor; assumption |].
      intros F; inversion F; assumption.
Qed.

Lemma chunk_request_valid (m : GetSnapshotChunkRequestMessage.t) :
  GetSnapshotChunkRequestMessage.ValidateBasic (Some m) = None
  <-> GetSnapshotChunkRequestMessage.Height m <> 0
      /\ GetSnapshotChunkRequestMessage.Chunk m <> 0.
Proof.
  unfold GetSnapshotChunkRequestMessage.ValidateBasic.
  destruct (Z.eqb_spec (GetSnapshotChunkRequestMessage.Height m) 0);
    destruct (Z.eqb_spec (GetSnapshotChunkRequestMessage.Chunk m) 0);
    split; intros; try discriminate; try tauto.
Qed.

(** ** Decoding *)

Lemma decodeMsg_oversize `{Imports} (bz : list byte) :
  maxMsgSize < Z.of_nat (len bz) ->
  decodeMsg bz = inr (msg_exceeds_max_size (Z.of_nat (len bz)) maxMsgSize).
Proof.
  intros Hlen. unfold decodeMsg.
  destruct (Z.gtb_spec (Z.of_nat (len bz)) maxMsgSize); [reflexivity | lia].
Qed.

Section ReceiveFacts.

Context {App Sync : Type}.
Context {conn_ops : AppConnSnapshot App}.
Context {sync_ops : SyncMachine App Sync}.
Context {imports : Imports}.

Implicit Types ssR : Reactor App Sync.

Lemma Receive_not_running chID src bz ssR :
  running ssR = false -> Receive chID src bz ssR = (Returned tt, ssR).
Proof.
  intros Hrun. unfold Receive, bind, IsRunning. rewrite Hrun. reflexivity.
Qed.

Lemma Receive_undecodable chID src bz ssR err :
  running ssR = true -> decodeMsg bz = inr err ->
  Receive chID src bz ssR = (Returned tt, stopped src err ssR).
Proof.
  intros Hrun Hdec. unfold Receive, bind, IsRunning.
  rewrite Hrun, Hdec. reflexivity.
Qed.

Lemma Receive_decoded chID src bz ssR msg :
  running ssR = true -> decodeMsg bz = inl msg ->
  Receive chID src bz ssR =
  match ValidateBasic msg with
  | Some err => (Returned tt, stopped src err ssR)
  | None => dispatch chID src msg ssR
  end.
Proof.
  intros Hrun Hdec. unfold Receive, bind, IsRunning.
  rewrite Hrun, Hdec. simpl. destruct (ValidateBasic msg); reflexivity.
Qed.

(** C7.  A decoded message goes through [ValidateBasic] before the
    reactor looks at the channel or the message type: a message that fails
    it only gets its sender stopped, with the reactor's sync state, its
    application and everything sent so far as they were; a message that
    passes is dispatched.  A chunk request passes exactly when its height
    and its chunk index are both non-zero. *)
Theorem C7_validated_before_dispatch :
  (forall m : GetSnapshotChunkRequestMessage.t,
      ValidateBasic (GetSnapshotChunkRequest (Some m)) = None
      <-> GetSnapshotChunkRequestMessage.Height m <> 0
          /\ GetSnapshotChunkRequestMessage.Chunk m <> 0)
  /\ (forall chID src bz ssR msg,
        running ssR = true ->
        decodeMsg bz = inl msg ->
        (forall err, ValidateBasic msg = Some err ->
           Receive chID src bz ssR = (Returned tt, stopped src err ssR))
        /\ (ValidateBasic msg = None ->
            Receive chID src bz ssR = dispatch chID src msg ssR)).
Proof.
  split.
  - intros m. apply chunk_request_valid.
  - intros chID src bz ssR msg Hrun Hdec.
    rewrite (Receive_decoded chID src bz ssR msg Hrun Hdec).
    split.
    + intros err Herr. rewrite Herr. reflexivity.
    + intros Hok. rewrite Hok. reflexivity.
Qed.

(** C8.  Bytes longer than [maxMsgSize] (65e6) are refused by [decodeMsg]
    with the size error before the codec sees them; a running reactor then
    stops the sending peer and does nothing else, so the sync state is as
    it was.  This holds in particular at length 65e6 + 1. *)
Theorem C8_oversize_refused chID src bz ssR :
  maxMsgSize < Z.of_nat (len bz) ->
  decodeMsg bz = inr (msg_exceeds_max_size (Z.of_nat (len bz)) maxMsgSize)
  /\ (Z.of_nat (len bz) = 65000001 ->
      decodeMsg bz = inr (msg_exceeds_max_size 65000001 65000000))
  /\ (running ssR = true ->
      Receive chID src bz ssR =
      (Returned tt,
       stopped src (msg_exceeds_max_size (Z.of_nat (len bz)) maxMsgSize) ssR))
  /\ sync (snd (Receive chID src bz ssR)) = sync ssR.
Proof.
  intros Hlen. pose proof (decodeMsg_oversize bz Hlen) as Hdec.
  split; [exact Hdec |]. split; [| split].
  - intros E. rewrite Hdec, E. reflexivity.
  - intros Hrun. apply Receive_undecodable; assumption.
  - destruct (running ssR) eqn:Hrun.
    + rewrite (Receive_undecodable chID src bz ssR _ Hrun Hdec). reflexivity.
    + rewrite (Receive_not_running chID src bz ssR Hrun). reflexivity.
Qed.

Lemma ListSnapshotsResponse_ignored src m ssR :
  IsActive (sync ssR) || IsDone (sync ssR) = true ->
  Receive_ListSnapshotsResponse src m ssR = (Returned tt, ssR).
Proof.
  intros Hbusy. unfold Receive_ListSnapshotsResponse, bind, sync_get.
  rewrite Hbusy. reflexivity.
Qed.

(** C3.  Once the sync is active or done, a [ListSnapshotsResponse] changes
    nothing: the callback returns with the sync state, the application and
    the record of what was sent all as they were, so no snapshot is offered
    and no message is sent.  (A response that fails validation still gets
    its sender stopped, which is all it causes.) *)
Theorem C3_response_ignored_once_started chID src bz ssR m :
  decodeMsg bz = inl (ListSnapshotsResponse m) ->
  IsActive (sync ssR) || IsDone (sync ssR) = true ->
  Receive chID src bz ssR =
  (Returned tt,
   if running ssR then
     match ValidateBasic (ListSnapshotsResponse m) with
     | Some err => stopped src err ssR
     | None => ssR
     end
   else ssR).
Proof.
  intros Hdec Hbusy. destruct (running ssR) eqn:Hrun.
  - rewrite (Receive_decoded chID src bz ssR _ Hrun Hdec).
    destruct (ValidateBasic (ListSnapshotsResponse m)); [reflexivity |].
    unfold dispatch.
    destruct (Byte.eqb chID MetadataChannel).
    + apply ListSnapshotsResponse_ignored; assumption.
    + destruct (Byte.eqb chID ChunkChannel); reflexivity.
  - apply Receive_not_running; assumption.
Qed.

Lemma dispatch_metadata src msg :
  dispatch MetadataChannel src msg =
  match msg with
  | ListSnapshotsRequest _ => Receive_ListSnapshotsRequest src
  | ListSnapshotsResponse m => Receive_ListSnapshotsResponse src m
  | _ => ret tt
  end.
Proof. reflexivity. Qed.

Lemma dispatch_chunk src msg :
  dispatch ChunkChannel src msg =
  match msg with
  | GetSnapshotChunkRequest m => Receive_GetSnapshotChunkRequest src m
  | GetSnapshotChunkResponse m => Receive_GetSnapshotChunkResponse src m
  | _ => ret tt
  end.
Proof. reflexivity. Qed.

(** The serving handlers: what they do, case by case. *)

Lemma Receive_ListSnapshotsRequest_eq src ssR :
  Receive_ListSnapshotsRequest src ssR =
  match ListSnapshotsSync (conn ssR) with
  | (inl resp, app) =>
      (Returned tt,
       sent src MetadataChannel
         (MustMarshalBinaryBare
            (ListSnapshotsResponse
               (Some {| ListSnapshotsResponseMessage.Snapshots :=
                          map to_Snapshot (types.Snapshots resp) |})))
         (with_sync (sync ssR) app ssR))
  | (inr _, app) => (Returned tt, with_sync (sync ssR) app ssR)
  end.
Proof.
  unfold Receive_ListSnapshotsRequest, bind, conn_ListSnapshotsSync.
  destruct (ListSnapshotsSync (conn ssR)) as [[resp|err] app]; reflexivity.
Qed.

Lemma Receive_GetSnapshotChunkRequest_eq src m ssR :
  Receive_GetSnapshotChunkRequest src (Some m) ssR =
  match GetSnapshotChunkSync
          {| types.req_Height := GetSnapshotChunkRequestMessage.Height m;
             types.req_Format := GetSnapshotChunkRequestMessage.Format m;
             types.req_Chunk := GetSnapshotChunkRequestMessage.Chunk m |}
          (conn ssR) with
  | (inl resp, app) =>
      match types.Chunk resp with
      | Some c =>
          (Returned tt,
           sent src ChunkChannel
             (MustMarshalBinaryBare
                (GetSnapshotChunkResponse
                   (Some {| GetSnapshotChunkResponseMessage.Chunk :=
                              to_SnapshotChunk c |})))
             (with_sync (sync ssR) app ssR))
      | None =>
          (Panicked (panic_string "No chunk"), with_sync (sync ssR) app ssR)
      end
  | (inr err, app) =>
      (Panicked (panic_error err), with_sync (sync ssR) app ssR)
  end.
Proof.
  unfold Receive_GetSnapshotChunkRequest, bind, conn_GetSnapshotChunkSync.
  destruct (GetSnapshotChunkSync _ (conn ssR)) as [[resp|err] app];
    [destruct (types.Chunk resp) |]; reflexivity.
Qed.

Lemma serving_keeps_sync chID src msg ssR :
  (exists m, msg = ListSnapshotsRequest m)
  \/ (exists m, msg = GetSnapshotChunkRequest m) ->
  sync (snd (dispatch chID src msg ssR)) = sync ssR.
Proof.
  intros [[m ->]|[m ->]]; unfold dispatch.
  - destruct (Byte.eqb chID MetadataChannel).
    + rewrite Receive_ListSnapshotsRequest_eq.
      destruct (ListSnapshotsSync (conn ssR)) as [[resp|err] app];
        reflexivity.
    + destruct (Byte.eqb chID ChunkChannel); reflexivity.
  - destruct (Byte.eqb chID MetadataChannel); [reflexivity |].
    destruct (Byte.eqb chID ChunkChannel); [| reflexivity].
    destruct m as [m|]; [| reflexivity].
    rewrite Receive_GetSnapshotChunkRequest_eq.
    destruct (GetSnapshotChunkSync _ (conn ssR)) as [[resp|err] app];
      [destruct (types.Chunk resp) |]; reflexivity.
Qed.

(** C10.  Serving never touches the restore state machine: whatever the
    channel, the peer and the state of the reactor, after a
    [ListSnapshotsRequest] or a [GetSnapshotChunkRequest] the field [sync]
    is what it was.  On its own channel a valid request makes the reactor
    query the application and send the answer to the requesting peer (a
    failed listing is only logged, a failed or empty chunk load panics). *)
Theorem C10_serving_leaves_sync chID src bz ssR msg :
  decodeMsg bz = inl msg ->
  (exists m, msg = ListSnapshotsRequest m)
  \/ (exists m, msg = GetSnapshotChunkRequest m) ->
  sync (snd (Receive chID src bz ssR)) = sync ssR
  /\ (running ssR = true -> ValidateBasic msg = None ->
      (forall m, msg = ListSnapshotsRequest m ->
         Receive MetadataChannel src bz ssR =
         match ListSnapshotsSync (conn ssR) with
         | (inl resp, app) =>
             (Returned tt,
              sent src MetadataChannel
                (MustMarshalBinaryBare
                   (ListSnapshotsResponse
                      (Some {| ListSnapshotsResponseMessage.Snapshots :=
                                 map to_Snapshot (types.Snapshots resp) |})))
                (with_sync (sync ssR) app ssR))
         | (inr _, app) => (Returned tt, with_sync (sync ssR) app ssR)
         end)
      /\ (forall m, msg = GetSnapshotChunkRequest (Some m) ->
          Receive ChunkChannel src bz ssR =
          match GetSnapshotChunkSync
                  {| types.req_Height :=
                       GetSnapshotChunkRequestMessage.Height m;
                     types.req_Format :=
                       GetSnapshotChunkRequestMessage.Format m;
                     types.req_Chunk :=
                       GetSnapshotChunkRequestMessage.Chunk m |}
                  (conn ssR) with
          | (inl resp, app) =>
              match types.Chunk resp with
              | Some c =>
                  (Returned tt,
                   sent src ChunkChannel
                     (MustMarshalBinaryBare
                        (GetSnapshotChunkResponse
                           (Some {| GetSnapshotChunkResponseMessage.Chunk :=
                                      to_SnapshotChunk c |})))
                     (with_sync (sync ssR) app ssR))
              | None =>
                  (Panicked (panic_string "No chunk"),
                   with_sync (sync ssR) app ssR)
              end
          | (inr err, app) =>
              (Panicked (panic_error err), with_sync (sync ssR) app ssR)
          end)).
Proof.
  intros Hdec Hreq. split.
  - destruct (running ssR) eqn:Hrun.
    + rewrite (Receive_decoded chID src bz ssR msg Hrun Hdec).
      destruct (ValidateBasic msg); [reflexivity |].
      apply serving_keeps_sync; assumption.
    + rewrite (Receive_not_running chID src bz ssR Hrun). reflexivity.
  - intros Hrun Hok. split; intros m ->.
    + rewrite (Receive_decoded _ src bz ssR _ Hrun Hdec), Hok.
      apply Receive_ListSnapshotsRequest_eq.
    + rewrite (Receive_decoded _ src bz ssR _ Hrun Hdec), Hok.
      apply Receive_GetSnapshotChunkRequest_eq.
Qed.

(** The restore handler for a chunk, case by case on what [Apply] returns. *)
Lemma Receive_GetSnapshotChunkResponse_eq src m ssR :
  IsActive (sync ssR) = true ->
  Receive_GetSnapshotChunkResponse src (Some m) ssR =
  match Apply (GetSnapshotChunkResponseMessage.Chunk m) (sync ssR) (conn ssR)
  with
  | (Some err, sy, app) => (Panicked (panic_error err), with_sync sy app ssR)
  | (None, sy, app) =>
      if IsDone sy then (Returned tt, with_sync sy app ssR)
      else
        match snapshot sy with
        | None => (Panicked nil_dereference, with_sync sy app ssR)
        | Some s =>
            (Returned tt,
             sent src ChunkChannel
               (MustMarshalBinaryBare
                  (GetSnapshotChunkRequest
                     (Some {| GetSnapshotChunkRequestMessage.Height :=
                                Snapshot.Height s;
                              GetSnapshotChunkRequestMessage.Format :=
                                Snapshot.Format s;
                              GetSnapshotChunkRequestMessage.Chunk :=
                                nextChunk sy |})))
               (with_sync sy app ssR))
        end
  end.
Proof.
  intros Hact.
  unfold Receive_GetSnapshotChunkResponse, bind, sync_get, sync_Apply.
  rewrite Hact. simpl.
  destruct (Apply _ (sync ssR) (conn ssR)) as [[[err|] sy] app]; simpl;
    [reflexivity |].
  destruct (IsDone sy); [reflexivity |]. simpl.
  destruct (snapshot sy); reflexivity.
Qed.

Lemma Receive_chunk_response src bz m ssR :
  running ssR = true ->
  decodeMsg bz = inl (GetSnapshotChunkResponse (Some m)) ->
  ValidateBasic (GetSnapshotChunkResponse (Some m)) = None ->
  Receive ChunkChannel src bz ssR =
  Receive_GetSnapshotChunkResponse src (Some m) ssR.
Proof.
  intros Hrun Hdec Hok.
  rewrite (Receive_decoded _ src bz ssR _ Hrun Hdec), Hok. reflexivity.
Qed.

(** A chunk response that reaches a reactor with no restore in progress is
    dropped: nothing changes (lines 187-190). *)
Theorem chunk_response_dropped_when_inactive src bz m ssR :
  running ssR = true ->
  decodeMsg bz = inl (GetSnapshotChunkResponse m) ->
  ValidateBasic (GetSnapshotChunkResponse m) = None ->
  IsActive (sync ssR) = false ->
  Receive ChunkChannel src bz ssR = (Returned tt, ssR).
Proof.
  intros Hrun Hdec Hok Hact.
  rewrite (Receive_decoded _ src bz ssR _ Hrun Hdec), Hok.
  rewrite dispatch_chunk.
  unfold Receive_GetSnapshotChunkResponse, bind, sync_get.
  rewrite Hact. reflexivity.
Qed.

(** A response that lists no snapshot changes nothing (lines 123-125). *)
Theorem empty_list_ignored src bz m ssR :
  running ssR = true ->
  decodeMsg bz = inl (ListSnapshotsResponse (Some m)) ->
  ListSnapshotsResponseMessage.Snapshots m = [] ->
  Receive MetadataChannel src bz ssR = (Returned tt, ssR).
Proof.
  intros Hrun Hdec Hempty.
  rewrite (Receive_decoded _ src bz ssR _ Hrun Hdec).
  cbn [ValidateBasic ListSnapshotsResponseMessage.ValidateBasic].
  rewrite Hempty. cbn [ListSnapshotsResponseMessage.validate_each].
  rewrite dispatch_metadata.
  unfold Receive_ListSnapshotsResponse, bind, sync_get.
  destruct (IsActive (sync ssR) || IsDone (sync ssR)); [reflexivity |].
  rewrite Hempty. reflexivity.
Qed.

End ReceiveFacts.

(** ** Validation of snapshots *)

(** C6, as the code has it.  [Snapshot.ValidateBasic] looks at the height
    only, and a [ListSnapshotsResponse] is valid exactly when every
    snapshot in it has a non-zero height: the chunk count plays no part. *)
Theorem C6_snapshots_valid_iff_heights_nonzero :
  (forall s : Snapshot.t,
      Snapshot.ValidateBasic (Some s) = None <-> Snapshot.Height s <> 0)
  /\ (forall m : ListSnapshotsResponseMessage.t,
        ValidateBasic (ListSnapshotsResponse (Some m)) = None
        <-> Forall (fun s => Snapshot.Height s <> 0)
              (ListSnapshotsResponseMessage.Snapshots m)).
Proof.
  split.
  - intros s. unfold Snapshot.ValidateBasic.
    destruct (Z.eqb_spec (Snapshot.Height s) 0); split; intros;
      try discriminate; try tauto.
  - intros m. simpl. apply validate_each_none.
Qed.

(** C6 as stated fails: a snapshot of height 1 with no chunks passes
    [ValidateBasic], alone and inside a [ListSnapshotsResponse]. *)
Lemma C6_zero_chunks_accepted :
  let s := {| Snapshot.Height := 1; Snapshot.Format := 0;
              Snapshot.Chunks := 0; Snapshot.Metadata := [] |} in
  Snapshot.ValidateBasic (Some s) = None
  /\ ValidateBasic
       (ListSnapshotsResponse
          (Some {| ListSnapshotsResponseMessage.Snapshots := [s] |})) = None
  /\ ~ (forall m : ListSnapshotsResponseMessage.t,
          ValidateBasic (ListSnapshotsResponse (Some m)) = None ->
          Forall (fun s => Snapshot.Height s <> 0 /\ 1 <= Snapshot.Chunks s)
            (ListSnapshotsResponseMessage.Snapshots m)).
Proof.
  split; [reflexivity |]. split; [reflexivity |].
  intros Hclaim.
  specialize (Hclaim
    {| ListSnapshotsResponseMessage.Snapshots :=
         [ {| Snapshot.Height := 1; Snapshot.Format := 0;
              Snapshot.Chunks := 0; Snapshot.Metadata := [] |} ] |}
    eq_refl).
  inversion Hclaim as [|? ? [_ Hchunks] _]. simpl in Hchunks. lia.
Qed.

(** ** Soliciting snapshots *)

Section AddPeerFacts.

Context {App Sync : Type}.
Context {conn_ops : AppConnSnapshot App}.
Context {sync_ops : SyncMachine App Sync}.
Context {imports : Imports}.

Implicit Types ssR : Reactor App Sync.

(** C4 fails on the code.  [OnStart] returns without changing anything
    whether or not state sync is enabled, and the loop started by [AddPeer]
    never reads the configuration: with state sync disabled, a running peer
    and a sync that is neither active nor done, its first round sends a
    [ListSnapshotsRequest] to the new peer on the metadata channel. *)
Theorem C4_disabled_reactor_solicits peer ssR :
  Enabled (config ssR) = false ->
  IsActive (sync ssR) = false ->
  IsDone (sync ssR) = false ->
  OnStart ssR = (Returned None, ssR)
  /\ AddPeer peer [true] ssR =
     (Returned tt,
      sent peer MetadataChannel
        (MustMarshalBinaryBare
           (ListSnapshotsRequest (Some ListSnapshotsRequestMessage.mk)))
        ssR).
Proof.
  intros Hoff Hact Hdone. split.
  - unfold OnStart. rewrite Hoff. reflexivity.
  - unfold AddPeer, solicit, bind, sync_get.
    rewrite Hact, Hdone. reflexivity.
Qed.

End AddPeerFacts.

(** ** Ranking and sorting *)

Lemma snapshot_less_spec (a b : Snapshot.t) :
  snapshot_less a b = true
  <-> Snapshot.Height b < Snapshot.Height a
      \/ (Snapshot.Height a = Snapshot.Height b
          /\ Snapshot.Format b <= Snapshot.Format a).
Proof.
  unfold snapshot_less.
  destruct (Z.ltb_spec (Snapshot.Height a) (Snapshot.Height b));
    destruct (Z.eqb_spec (Snapshot.Height a) (Snapshot.Height b));
    destruct (Z.ltb_spec (Snapshot.Format a) (Snapshot.Format b));
    simpl; split; intros; try discriminate; try reflexivity; lia.
Qed.

Lemma snapshot_less_refl (a : Snapshot.t) : snapshot_less a a = true.
Proof. apply snapshot_less_spec. lia. Qed.

Lemma snapshot_less_total (a b : Snapshot.t) :
  snapshot_less a b = false -> snapshot_less b a = true.
Proof.
  intros H. apply snapshot_less_spec.
  destruct (snapshot_less a b) eqn:E; [discriminate |].
  assert (N : ~ (Snapshot.Height b < Snapshot.Height a
                 \/ (Snapshot.Height a = Snapshot.Height b
                     /\ Snapshot.Format b <= Snapshot.Format a))).
  { intros P. apply snapshot_less_spec in P. congruence. }
  lia.
Qed.

Lemma snapshot_less_trans (a b c : Snapshot.t) :
  snapshot_less a b = true -> snapshot_less b c = true ->
  snapshot_less a c = true.
Proof. rewrite !snapshot_less_spec. lia. Qed.

Lemma insert_by_perm {A : Type} (less : A -> A -> bool) (x : A) (l : list A) :
  Permutation (x :: l) (insert_by less x l).
Proof.
  induction l as [|y rest IH]; simpl.
  - apply Permutation_refl.
  - destruct (less x y).
    + apply Permutation_refl.
    + eapply perm_trans; [apply perm_swap |].
      apply perm_skip. exact IH.
Qed.

Lemma insertion_sort_perm {A : Type} (less : A -> A -> bool) (l : list A) :
  Permutation l (insertion_sort less l).
Proof.
  induction l as [|x rest IH]; simpl.
  - apply perm_nil.
  - eapply perm_trans; [apply perm_skip; exact IH |].
    apply insert_by_perm.
Qed.

Lemma insert_by_sorted (x : Snapshot.t) (l : list Snapshot.t) :
  StronglySorted (fun a b => snapshot_less a b = true) l ->
  StronglySorted (fun a b => snapshot_less a b = true)
    (insert_by snapshot_less x l).
Proof.
  induction 1 as [|y rest Hrest IH Hy]; simpl.
  - constructor; constructor.
  - destruct (snapshot_less x y) eqn:E.
    + constructor; [constructor; assumption |].
      constructor; [exact E |].
      eapply Forall_impl; [| exact Hy].
      intros z Hz. eapply snapshot_less_trans; eassumption.
    + constructor; [exact IH |].
      eapply Permutation_Forall; [apply insert_by_perm |].
      constructor; [apply snapshot_less_total; exact E | exact Hy].
Qed.

Lemma insertion_sort_sorts (table : list (list byte * Message)) :
  sorts_snapshots (table_imports table).
Proof.
  intros l. split; simpl.
  - apply insertion_sort_perm.
  - induction l as [|x rest IH]; simpl.
    + constructor.
    + apply insert_by_sorted. exact IH.
Qed.

(** ** Recorded calls *)

Lemma applied_app (a b : list AppCall) :
  applied (a ++ b) = applied a ++ applied b.
Proof.
  induction a as [|c a IH]; simpl; [reflexivity |].
  destruct c; simpl; rewrite IH; reflexivity.
Qed.

Lemma offered_app (a b : list AppCall) :
  offered (a ++ b) = offered a ++ offered b.
Proof.
  induction a as [|c a IH]; simpl; [reflexivity |].
  destruct c; simpl; rewrite IH; reflexivity.
Qed.

Lemma chunks_upto_next (snapshot : Snapshot.t) (n : Z) :
  1 <= n ->
  chunks_upto snapshot (n - 1)
  ++ [(Snapshot.Height snapshot, Snapshot.Format snapshot, n)]
  = chunks_upto snapshot n.
Proof.
  intros Hn. unfold chunks_upto.
  replace (Z.to_nat n) with (S (Z.to_nat (n - 1))) by lia.
  rewrite seq_S, map_app. cbn [map].
  replace (Z.of_nat (1 + Z.to_nat (n - 1))) with n by lia.
  reflexivity.
Qed.

(** ** Restoring with the state machine of the specification *)

Section Restore.

Context {application : Application}.
Context {imports : Imports}.

Implicit Types ssR : Reactor (list AppCall) SpecSync.t.

Lemma offers_app calls (l1 l2 : list Snapshot.t) :
  offers calls (l1 ++ l2) =
  offers calls l1 ++ offers (calls ++ map offer_snapshot_call l1) l2.
Proof.
  revert calls. induction l1 as [|x l1 IH]; intros calls;
    cbn [app offers map].
  - rewrite app_nil_r. reflexivity.
  - rewrite IH, <- app_assoc. reflexivity.
Qed.

Lemma offers_fst calls (l : list Snapshot.t) : map fst (offers calls l) = l.
Proof.
  revert calls. induction l as [|x l IH]; intros calls; cbn [offers map fst].
  - reflexivity.
  - rewrite IH. reflexivity.
Qed.

Lemma offers_In calls (l : list Snapshot.t) x answer :
  In (x, answer) (offers calls l) -> In x l.
Proof.
  intros Hin. apply (in_map fst) in Hin. rewrite offers_fst in Hin.
  exact Hin.
Qed.

Lemma accepted_inv (answer : OfferResult + Error) :
  accepted answer = true -> answer = inl Accept.
Proof. destruct answer as [[| | |]|err]; try discriminate. reflexivity. Qed.

(** The first snapshot accepted in its turn, with rejections before it. *)
Lemma first_accepted calls (l : list Snapshot.t) :
  (exists x, In (x, inl Accept) (offers calls l)) ->
  fails_first (offers calls l) = false ->
  exists before s after,
    l = before ++ s :: after
    /\ Forall (fun q => accepted (snd q) = false /\ failed (snd q) = false)
         (offers calls before)
    /\ on_offer_snapshot (calls ++ map offer_snapshot_call before) s
       = inl Accept.
Proof.
  revert calls. induction l as [|y rest IH]; intros calls [x Hin] Hfail.
  - contradiction.
  - cbn [offers fails_first] in Hin, Hfail.
    apply orb_false_iff in Hfail. destruct Hfail as [Hf Hrest].
    destruct (accepted (on_offer_snapshot calls y)) eqn:Hacc.
    + exists [], y, rest. split; [reflexivity |]. split; [constructor |].
      cbn [map]. rewrite app_nil_r. apply accepted_inv. exact Hacc.
    + cbn [negb andb] in Hrest.
      destruct Hin as [Heq|Hin].
      { injection Heq as _ Heq. rewrite Heq in Hacc. discriminate. }
      destruct (IH _ (ex_intro _ x Hin) Hrest)
        as (before & s & after & -> & Hb & Hs).
      exists (y :: before), s, after. split; [reflexivity |].
      split.
      * cbn [offers]. constructor; [split; assumption | exact Hb].
      * cbn [map]. rewrite <- app_assoc in Hs. exact Hs.
Qed.

Lemma offer_each_first_accepted src (before : list Snapshot.t)
  (s : Snapshot.t) (after : list Snapshot.t) :
  forall ssR,
    sync ssR = SpecSync.Idle ->
    Forall (fun q => accepted (snd q) = false /\ failed (snd q) = false)
      (offers (conn ssR) before) ->
    on_offer_snapshot (conn ssR ++ map offer_snapshot_call before) s
    = inl Accept ->
    offer_each src (before ++ s :: after) ssR =
    (Returned tt,
     sent src ChunkChannel (chunk_request s 1)
       (with_sync (SpecSync.Active s 1)
          (conn ssR ++ map offer_snapshot_call (before ++ [s])) ssR)).
Proof.
  induction before as [|x before IH]; intros ssR Hidle Hb Hs.
  - cbn [app offer_each]. unfold bind, sync_Start. cbn [Start spec_sync].
    rewrite Hidle. cbn [SpecSync.start offer_snapshot recording_restore].
    cbn [map] in Hs. rewrite app_nil_r in Hs. rewrite Hs. reflexivity.
  - cbn [offers] in Hb. inversion Hb as [|? ? [Hacc Hfail] Hb']; subst.
    cbn [snd] in Hacc, Hfail.
    cbn [app offer_each]. unfold bind at 1. unfold sync_Start.
    cbn [Start spec_sync].
    rewrite Hidle. cbn [SpecSync.start offer_snapshot recording_restore].
    assert (E : forall X : Outcome unit * Reactor (list AppCall) SpecSync.t,
               X = offer_each src (before ++ s :: after)
                     (with_sync SpecSync.Idle
                        (conn ssR ++ [offer_snapshot_call x]) ssR) ->
               X = (Returned tt,
                    sent src ChunkChannel (chunk_request s 1)
                      (with_sync (SpecSync.Active s 1)
                         (conn ssR
                          ++ map offer_snapshot_call ((x :: before) ++ [s]))
                         ssR))).
    { intros X ->. rewrite IH.
      - cbn [conn with_sync map app]. rewrite <- app_assoc. reflexivity.
      - reflexivity.
      - exact Hb'.
      - cbn [conn with_sync]. rewrite <- app_assoc. exact Hs. }
    destruct (on_offer_snapshot (conn ssR) x) as [[| | |]|err].
    + discriminate Hacc.
    + apply E; reflexivity.
    + apply E; reflexivity.
    + apply E; reflexivity.
    + destruct err; cbn in Hfail; try discriminate Hfail;
        apply E; reflexivity.
Qed.

Lemma sorted_after_split (before : list Snapshot.t) s after x :
  StronglySorted (fun a b => snapshot_less a b = true)
    (before ++ s :: after) ->
  In x after -> snapshot_less s x = true.
Proof.
  induction before as [|y before IH]; simpl; intros Hsorted Hin.
  - inversion Hsorted as [|? ? _ Hall]; subst.
    rewrite Forall_forall in Hall. apply Hall. exact Hin.
  - inversion Hsorted; subst. apply IH; assumption.
Qed.

(** C1, with what the reactor needs for it.  A valid
    [ListSnapshotsResponse] reaches a running reactor whose sync is [Idle];
    offered one after the other in the sorted order, the snapshots of the
    list get at least one [Accept] from the application, and no offer fails
    (with an error other than the three rejections) before one is accepted.
    Then the sorted list splits around a snapshot [s]: the snapshots
    [before] it are offered in that order, which is descending by (height,
    format), and are all rejected; [s] is offered next and accepted, and no
    snapshot of the list that the application accepts in its turn ranks
    higher; the machine is [Active] with [s] at chunk 1; the one message
    sent is the request for chunk 1 of [s] to the responding peer; nothing
    [after] is offered. *)
Theorem C1_highest_ranked_accepted_is_started src bz m ssR :
  sorts_snapshots imports ->
  running ssR = true ->
  decodeMsg bz = inl (ListSnapshotsResponse (Some m)) ->
  ValidateBasic (ListSnapshotsResponse (Some m)) = None ->
  sync ssR = SpecSync.Idle ->
  (exists x,
      In (x, inl Accept)
         (offers (conn ssR)
            (sort_Slice snapshot_less
               (ListSnapshotsResponseMessage.Snapshots m)))) ->
  fails_first
    (offers (conn ssR)
       (sort_Slice snapshot_less (ListSnapshotsResponseMessage.Snapshots m)))
  = false ->
  exists before s after,
    sort_Slice snapshot_less (ListSnapshotsResponseMessage.Snapshots m)
    = before ++ s :: after
    /\ StronglySorted (fun a b => snapshot_less a b = true)
         (before ++ s :: after)
    /\ Forall (fun q => accepted (snd q) = false /\ failed (snd q) = false)
         (offers (conn ssR) before)
    /\ on_offer_snapshot (conn ssR ++ map offer_snapshot_call before) s
       = inl Accept
    /\ In s (ListSnapshotsResponseMessage.Snapshots m)
    /\ (forall x,
           In (x, inl Accept)
              (offers (conn ssR)
                 (sort_Slice snapshot_less
                    (ListSnapshotsResponseMessage.Snapshots m))) ->
           Snapshot.Height x < Snapshot.Height s
           \/ (Snapshot.Height s = Snapshot.Height x
               /\ Snapshot.Format x <= Snapshot.Format s))
    /\ Receive MetadataChannel src bz ssR =
       (Returned tt,
        sent src ChunkChannel (chunk_request s 1)
          (with_sync (SpecSync.Active s 1)
             (conn ssR ++ map offer_snapshot_call (before ++ [s])) ssR)).
Proof.
  intros Hsort Hrun Hdec Hok Hidle Hacc Hfail.
  destruct (Hsort (ListSnapshotsResponseMessage.Snapshots m))
    as [Hperm Hsorted].
  destruct (first_accepted _ _ Hacc Hfail)
    as (before & s & after & Hsplit & Hbefore & Hs).
  exists before, s, after.
  split; [exact Hsplit |].
  split; [rewrite <- Hsplit; exact Hsorted |].
  split; [exact Hbefore |].
  split; [exact Hs |].
  assert (Hin : In s (ListSnapshotsResponseMessage.Snapshots m)).
  { eapply Permutation_in; [apply Permutation_sym; exact Hperm |].
    rewrite Hsplit. apply in_or_app. right. left. reflexivity. }
  split; [exact Hin |].
  split.
  { intros y Hy. apply snapshot_less_spec.
    rewrite Hsplit, offers_app in Hy. cbn [offers] in Hy.
    apply in_app_or in Hy. destruct Hy as [Hy|[Hy|Hy]].
    - rewrite Forall_forall in Hbefore.
      destruct (Hbefore _ Hy) as [Hno _]. discriminate Hno.
    - injection Hy as -> _. apply snapshot_less_refl.
    - apply offers_In in Hy.
      eapply sorted_after_split; [| exact Hy].
      rewrite <- Hsplit. exact Hsorted. }
  rewrite (Receive_decoded _ src bz ssR _ Hrun Hdec), Hok.
  rewrite dispatch_metadata.
  unfold Receive_ListSnapshotsResponse, bind, sync_get.
  cbn [IsActive IsDone spec_sync]. rewrite Hidle.
  cbn [SpecSync.is_active SpecSync.is_done orb].
  destruct (ListSnapshotsResponseMessage.Snapshots m) as [|y rest] eqn:El;
    [contradiction |].
  cbn [List.length Nat.eqb]. rewrite Hsplit.
  apply offer_each_first_accepted; assumption.
Qed.

(** The invariant of a restore is kept by every handler. *)

Lemma inv_idle_offered ssR x :
  sync ssR = SpecSync.Idle -> inv ssR ->
  inv (with_sync SpecSync.Idle (conn ssR ++ [offer_snapshot_call x]) ssR).
Proof.
  unfold inv. intros Hidle. rewrite Hidle. cbn.
  intros Hnone. rewrite applied_app, Hnone. reflexivity.
Qed.

Lemma offer_each_inv src (l : list Snapshot.t) :
  forall ssR,
    IsActive (sync ssR) = false -> IsDone (sync ssR) = false ->
    inv ssR -> inv (snd (offer_each src l ssR)).
Proof.
  induction l as [|x rest IH]; intros ssR Hact Hdone Hinv; [exact Hinv |].
  cbn [offer_each]. unfold bind at 1. unfold sync_Start.
  cbn [Start spec_sync].
  destruct (sync ssR) eqn:Hs; try discriminate.
  - cbn [SpecSync.start offer_snapshot recording_restore].
    pose proof (inv_idle_offered ssR x Hs Hinv) as Hnext.
    assert (Hcont :
      inv (snd (offer_each src rest
                  (with_sync SpecSync.Idle
                     (conn ssR ++ [offer_snapshot_call x]) ssR)))).
    { apply IH; [reflexivity | reflexivity | exact Hnext]. }
    destruct (on_offer_snapshot (conn ssR) x) as [[| | |]|err].
    + unfold inv in Hinv |- *. rewrite Hs in Hinv. cbn in Hinv |- *.
      rewrite applied_app, offered_app, Hinv. cbn.
      repeat split; try lia.
      apply in_or_app. right. left. reflexivity.
    + exact Hcont.
    + exact Hcont.
    + exact Hcont.
    + destruct err; try exact Hcont; exact Hnext.
  - cbn. unfold inv. cbn. exact I.
Qed.

Lemma expected_true snapshot n chunk :
  SpecSync.expected snapshot n chunk = true ->
  SnapshotChunk.Height chunk = Snapshot.Height snapshot
  /\ SnapshotChunk.Format chunk = Snapshot.Format snapshot
  /\ SnapshotChunk.Chunk chunk = n.
Proof.
  unfold SpecSync.expected. rewrite !andb_true_iff, !Z.eqb_eq. tauto.
Qed.

(** [Sync.Apply] on the expected chunk, when the application applies it. *)
Lemma apply_expected snapshot n chunk calls :
  SpecSync.expected snapshot n chunk = true ->
  on_apply_chunk calls (Snapshot.Height snapshot) (Snapshot.Format snapshot)
    n (SnapshotChunk.Data chunk) = inl true ->
  SpecSync.apply chunk (SpecSync.Active snapshot n) calls =
  (None,
   if n =? Snapshot.Chunks snapshot
   then SpecSync.Done (Snapshot.Height snapshot) (Snapshot.Format snapshot)
   else SpecSync.Active snapshot (n + 1),
   calls ++ [apply_chunk_call (Snapshot.Height snapshot)
               (Snapshot.Format snapshot) n (SnapshotChunk.Data chunk)]).
Proof.
  intros Hexp Happ. unfold SpecSync.apply. rewrite Hexp.
  destruct (expected_true _ _ _ Hexp) as (-> & -> & ->).
  cbn [apply_chunk recording_restore]. rewrite Happ.
  destruct (_ =? Snapshot.Chunks snapshot); reflexivity.
Qed.





Lemma apply_inv chunk (st : SpecSync.t) calls :
  restore_inv st calls ->
  restore_inv (snd (fst (SpecSync.apply chunk st calls)))
    (snd (SpecSync.apply chunk st calls)).
Proof.
  destruct st as [|snapshot n|h f|reason]; cbn [SpecSync.apply];
    try (intros Hinv; exact Hinv).
  intros (Hn & Hoff & Happlied & Hbound).
  destruct (SpecSync.expected snapshot n chunk) eqn:Hexp;
    [| cbn; tauto].
  destruct (expected_true _ _ _ Hexp) as (Eh & Ef & Ec).
  cbn [apply_chunk recording_restore].
  destruct (on_apply_chunk calls _ _ _ _) as [[|]|err]; cbn; try exact I.
  rewrite Eh, Ef, Ec.
  destruct (Z.eqb_spec n (Snapshot.Chunks snapshot)) as [E|E]; cbn.
  - exists snapshot. rewrite applied_app, offered_app, Happlied. cbn.
    rewrite chunks_upto_next by exact Hn. rewrite <- E.
    repeat split. apply in_or_app. left. exact Hoff.
  - rewrite applied_app, offered_app, Happlied. cbn.
    rewrite chunks_upto_next by exact Hn.
    replace (n + 1 - 1) with n by lia.
    repeat split; try lia. apply in_or_app. left. exact Hoff.
Qed.

Lemma inv_with_call ssR (c : AppCall) :
  applied [c] = [] -> offered [c] = [] ->
  inv ssR -> inv (with_sync (sync ssR) (conn ssR ++ [c]) ssR).
Proof.
  unfold inv. cbn [sync conn with_sync]. intros Ha Ho.
  assert (Ea : applied (conn ssR ++ [c]) = applied (conn ssR))
    by (rewrite applied_app, Ha, app_nil_r; reflexivity).
  assert (Eo : offered (conn ssR ++ [c]) = offered (conn ssR))
    by (rewrite offered_app, Ho, app_nil_r; reflexivity).
  destruct (sync ssR); cbn; rewrite ?Ea, ?Eo; trivial.
Qed.

Lemma dispatch_inv chID src msg ssR :
  ValidateBasic msg = None -> inv ssR -> inv (snd (dispatch chID src msg ssR)).
Proof.
  intros Hok Hinv. unfold dispatch.
  destruct (Byte.eqb chID MetadataChannel).
  - destruct msg as [m|m|m|m]; try exact Hinv.
    + rewrite Receive_ListSnapshotsRequest_eq.
      cbn [ListSnapshotsSync recording_conn].
      destruct (on_list_snapshots (conn ssR));
        apply (inv_with_call ssR list_snapshots_call); trivial.
    + unfold Receive_ListSnapshotsResponse, bind, sync_get.
      destruct (IsActive (sync ssR)) eqn:Hact; [exact Hinv |].
      destruct (IsDone (sync ssR)) eqn:Hdone; [exact Hinv |].
      cbn [orb]. destruct m as [m|]; [| exact Hinv].
      destruct (len (ListSnapshotsResponseMessage.Snapshots m) =? 0)%nat;
        [exact Hinv |].
      apply offer_each_inv; assumption.
  - destruct (Byte.eqb chID ChunkChannel); [| exact Hinv].
    destruct msg as [m|m|m|m]; try exact Hinv.
    + destruct m as [m|]; [| exact Hinv].
      rewrite Receive_GetSnapshotChunkRequest_eq.
      cbn [GetSnapshotChunkSync recording_conn].
      destruct (on_load_chunk (conn ssR) _) as [resp|err];
        [destruct (types.Chunk resp) |];
        apply (inv_with_call ssR (load_chunk_call _)); trivial.
    + destruct (IsActive (sync ssR)) eqn:Hact.
      * destruct m as [m|];
          [| unfold Receive_GetSnapshotChunkResponse, bind, sync_get;
             rewrite Hact; exact Hinv].
        rewrite (Receive_GetSnapshotChunkResponse_eq src m ssR Hact).
        pose proof (apply_inv (GetSnapshotChunkResponseMessage.Chunk m)
                      (sync ssR) (conn ssR) Hinv) as Hnext.
        cbn [Apply spec_sync].
        destruct (SpecSync.apply _ (sync ssR) (conn ssR))
          as [[[err|] sy] calls]; cbn in Hnext; [exact Hnext |].
        destruct (IsDone sy); [exact Hnext |].
        destruct (snapshot sy); exact Hnext.
      * unfold Receive_GetSnapshotChunkResponse, bind, sync_get.
        rewrite Hact. exact Hinv.
Qed.

Lemma Receive_inv chID src bz ssR :
  inv ssR -> inv (snd (Receive chID src bz ssR)).
Proof.
  intros Hinv. destruct (running ssR) eqn:Hrun.
  - destruct (decodeMsg bz) as [msg|err] eqn:Hdec.
    + rewrite (Receive_decoded chID src bz ssR msg Hrun Hdec).
      destruct (ValidateBasic msg) eqn:Hok; [exact Hinv |].
      apply dispatch_inv; assumption.
    + rewrite (Receive_undecodable chID src bz ssR err Hrun Hdec).
      exact Hinv.
  - rewrite (Receive_not_running chID src bz ssR Hrun). exact Hinv.
Qed.

Lemma deliver_inv (inbound : list Delivery) :
  forall ssR, inv ssR -> inv (snd (deliver inbound ssR)).
Proof.
  induction inbound as [|d later IH]; intros ssR Hinv; [exact Hinv |].
  cbn [deliver]. unfold bind.
  pose proof (Receive_inv (chID d) (src d) (msgBytes d) ssR Hinv) as Hnext.
  destruct (Receive (chID d) (src d) (msgBytes d) ssR) as [[[]|v] ssR1].
  - apply IH. exact Hnext.
  - exact Hnext.
Qed.

(** C2.  Whatever traffic is delivered to a reactor that starts idle with
    no chunk applied, if the sync ends up done then some offered snapshot
    [s] was restored and the application's [apply_chunk] calls are exactly
    those for chunks 1, 2, ..., [Chunks s] of [s], once each and in that
    order.  One step of it: when the expected chunk [n] arrives and the
    application applies it, the reactor either sends the request for chunk
    [n + 1] to the same peer (the machine stays active, at [n + 1]) or, if
    [n] was the last chunk, sends nothing (the machine is done). *)
Theorem C2_chunks_applied_once_in_order :
  (forall inbound ssR out ssR',
      sync ssR = SpecSync.Idle ->
      applied (conn ssR) = [] ->
      deliver inbound ssR = (out, ssR') ->
      IsDone (sync ssR') = true ->
      exists s,
        In s (offered (conn ssR'))
        /\ sync ssR' = SpecSync.Done (Snapshot.Height s) (Snapshot.Format s)
        /\ applied (conn ssR') = chunks_upto s (Snapshot.Chunks s))
  /\ (forall src bz m ssR s n,
        running ssR = true ->
        decodeMsg bz = inl (GetSnapshotChunkResponse (Some m)) ->
        ValidateBasic (GetSnapshotChunkResponse (Some m)) = None ->
        sync ssR = SpecSync.Active s n ->
        SpecSync.expected s n (GetSnapshotChunkResponseMessage.Chunk m)
        = true ->
        on_apply_chunk (conn ssR) (Snapshot.Height s) (Snapshot.Format s) n
          (SnapshotChunk.Data (GetSnapshotChunkResponseMessage.Chunk m))
        = inl true ->
        Receive ChunkChannel src bz ssR =
        (Returned tt,
         let calls :=
           conn ssR
           ++ [apply_chunk_call (Snapshot.Height s) (Snapshot.Format s) n
                 (SnapshotChunk.Data
                    (GetSnapshotChunkResponseMessage.Chunk m))] in
         if n =? Snapshot.Chunks s
         then with_sync
                (SpecSync.Done (Snapshot.Height s) (Snapshot.Format s))
                calls ssR
         else sent src ChunkChannel (chunk_request s (n + 1))
                (with_sync (SpecSync.Active s (n + 1)) calls ssR))).
Proof.
  split.
  - intros inbound ssR out ssR' Hidle Hnone Hrun Hdone.
    assert (Hinv : inv ssR) by (unfold inv; rewrite Hidle; exact Hnone).
    pose proof (deliver_inv inbound ssR Hinv) as Hend.
    rewrite Hrun in Hend. unfold inv in Hend. cbn [snd] in Hend.
    cbn [IsDone spec_sync] in Hdone.
    destruct (sync ssR') as [| | h f |]; try discriminate.
    destruct Hend as (s & -> & -> & Hoff & Happlied).
    exists s. repeat split; assumption.
  - intros src bz m ssR s n Hrun Hdec Hok Hs Hexp Happ.
    rewrite (Receive_chunk_response src bz m ssR Hrun Hdec Hok).
    rewrite (Receive_GetSnapshotChunkResponse_eq src m ssR)
      by (rewrite Hs; reflexivity).
    cbn [Apply spec_sync]. rewrite Hs.
    rewrite (apply_expected _ _ _ _ Hexp Happ).
    destruct (n =? Snapshot.Chunks s); reflexivity.
Qed.

End Restore.

(** * The scenarios, run *)

Section Scenarios.

#[local] Existing Instance Scenario.app.
#[local] Existing Instance Scenario.imports.

Import Scenario.

(** Scenario S2 under C1: the candidates are offered as (10,2) then (10,1);
    the restore starts with (10,1) and (5,1) is never offered. *)
Lemma C1_witness :
  exists before s after,
    sort_Slice snapshot_less
      (ListSnapshotsResponseMessage.Snapshots candidates)
    = before ++ s :: after
    /\ StronglySorted (fun a b => snapshot_less a b = true)
         (before ++ s :: after)
    /\ Forall (fun q => accepted (snd q) = false /\ failed (snd q) = false)
         (offers (conn (reactor true SpecSync.Idle)) before)
    /\ on_offer_snapshot
         (conn (reactor true SpecSync.Idle) ++ map offer_snapshot_call before)
         s
       = inl Accept
    /\ In s (ListSnapshotsResponseMessage.Snapshots candidates)
    /\ (forall x,
           In (x, inl Accept)
              (offers (conn (reactor true SpecSync.Idle))
                 (sort_Slice snapshot_less
                    (ListSnapshotsResponseMessage.Snapshots candidates))) ->
           Snapshot.Height x < Snapshot.Height s
           \/ (Snapshot.Height s = Snapshot.Height x
               /\ Snapshot.Format x <= Snapshot.Format s))
    /\ Receive MetadataChannel P [x02; x03] (reactor true SpecSync.Idle) =
       (Returned tt,
        sent P ChunkChannel (chunk_request s 1)
          (with_sync (SpecSync.Active s 1)
             (conn (reactor true SpecSync.Idle)
              ++ map offer_snapshot_call (before ++ [s]))
             (reactor true SpecSync.Idle))).
Proof.
  apply (C1_highest_ranked_accepted_is_started
           P [x02; x03] candidates (reactor true SpecSync.Idle)).
  - apply insertion_sort_sorts.
  - reflexivity.
  - reflexivity.
  - reflexivity.
  - reflexivity.
  - exists (snapshot 10 1 2). simpl. tauto.
  - reflexivity.
Defined.

(** Scenario S1 under C2: the run ends done with chunks 1 and 2 applied in
    that order, and chunk 1 of 2 is followed by the request for chunk 2. *)
Lemma C2_witness :
  (exists s,
      In s (offered (conn (snd (deliver restore_run
                                  (reactor true SpecSync.Idle)))))
      /\ sync (snd (deliver restore_run (reactor true SpecSync.Idle)))
         = SpecSync.Done (Snapshot.Height s) (Snapshot.Format s)
      /\ applied (conn (snd (deliver restore_run
                               (reactor true SpecSync.Idle))))
         = chunks_upto s (Snapshot.Chunks s))
  /\ Receive ChunkChannel P [x04; x01] (reactor true (restoring 1)) =
     (Returned tt,
      sent P ChunkChannel (chunk_request (snapshot 10 1 2) 2)
        (with_sync (SpecSync.Active (snapshot 10 1 2) 2)
           [apply_chunk_call 10 1 1 [x2a]] (reactor true (restoring 1)))).
Proof.
  split.
  - apply (proj1 C2_chunks_applied_once_in_order restore_run
             (reactor true SpecSync.Idle)
             (fst (deliver restore_run (reactor true SpecSync.Idle)))).
    + reflexivity.
    + reflexivity.
    + apply surjective_pairing.
    + reflexivity.
  - apply (proj2 C2_chunks_applied_once_in_order P [x04; x01]
             (chunk_response 1 zeros) (reactor true (restoring 1))
             (snapshot 10 1 2) 1); reflexivity.
Defined.

(** Scenario S5 under C3: a second list arrives during the restore. *)
Lemma C3_witness :
  Receive MetadataChannel P [x02; x01] (reactor true (restoring 2))
  = (Returned tt, reactor true (restoring 2)).
Proof.
  apply (C3_response_ignored_once_started MetadataChannel P [x02; x01]
           (reactor true (restoring 2))
           (Some {| ListSnapshotsResponseMessage.Snapshots :=
                      [snapshot 10 1 2] |}));
    reflexivity.
Defined.

(** C4 at a reactor with state sync disabled. *)
Lemma C4_witness :
  OnStart (reactor false SpecSync.Idle)
  = (Returned None, reactor false SpecSync.Idle)
  /\ AddPeer P [true] (reactor false SpecSync.Idle) =
     (Returned tt,
      sent P MetadataChannel (MustMarshalBinaryBare list_request)
        (reactor false SpecSync.Idle)).
Proof.
  apply (C4_disabled_reactor_solicits P (reactor false SpecSync.Idle));
    reflexivity.
Defined.

(** Scenario S4 under C7: a chunk request with height 0 stops its sender. *)
Lemma C7_witness :
  Receive ChunkChannel P [x03; x00] (reactor true (restoring 1))
  = (Returned tt,
     stopped P (errors_New "height 0") (reactor true (restoring 1))).
Proof.
  refine (proj1 (proj2 C7_validated_before_dispatch ChunkChannel P
                   [x03; x00] (reactor true (restoring 1)) bad_request _ _)
            _ _);
    reflexivity.
Defined.

Lemma oversize_length : Z.of_nat (len oversize) = 65000001.
Proof.
  unfold oversize. rewrite repeat_length. apply Z2Nat.id. lia.
Qed.

(** Scenario S6 under C8: 65e6 + 1 bytes on the chunk channel. *)
Lemma C8_witness :
  decodeMsg oversize
  = inr (msg_exceeds_max_size (Z.of_nat (len oversize)) maxMsgSize)
  /\ (Z.of_nat (len oversize) = 65000001 ->
      decodeMsg oversize = inr (msg_exceeds_max_size 65000001 65000000))
  /\ (running (reactor true (restoring 1)) = true ->
      Receive ChunkChannel P oversize (reactor true (restoring 1)) =
      (Returned tt,
       stopped P (msg_exceeds_max_size (Z.of_nat (len oversize)) maxMsgSize)
         (reactor true (restoring 1))))
  /\ sync (snd (Receive ChunkChannel P oversize (reactor true (restoring 1))))
     = sync (reactor true (restoring 1)).
Proof.
  apply (C8_oversize_refused ChunkChannel P oversize
           (reactor true (restoring 1))).
  rewrite oversize_length. reflexivity.
Defined.



(** Serving under C10: a list request during a restore. *)
Lemma C10_witness :
  sync (snd (Receive MetadataChannel P [x01] (reactor true (restoring 1))))
  = restoring 1
  /\ Receive MetadataChannel P [x01] (reactor true (restoring 1)) =
     (Returned tt,
      sent P MetadataChannel
        (MustMarshalBinaryBare
           (ListSnapshotsResponse
              (Some {| ListSnapshotsResponseMessage.Snapshots :=
                         [snapshot 10 1 2] |})))
        (with_sync (restoring 1) [list_snapshots_call]
           (reactor true (restoring 1)))).
Proof.
  assert (Hdec : decodeMsg [x01] = inl list_request) by reflexivity.
  pose proof (C10_serving_leaves_sync MetadataChannel P [x01]
                (reactor true (restoring 1)) list_request Hdec
                (or_introl (ex_intro _ _ eq_refl))) as [Hframe Hserve].
  split; [exact Hframe |].
  refine (proj1 (Hserve _ _) _ _); reflexivity.
Defined.

(** C5 fails on the code.  Whatever function computes the checksum, there
    is a chunk whose 20-byte checksum is not the checksum of its data and
    which the restore path applies all the same: the reactor hands the
    chunk to [Apply] without hashing anything, and [apply_chunk] is called
    with its data. *)
Theorem C5_chunk_applied_unverified (sha1_Sum : list byte -> list byte) :
  exists bz checksum,
    decodeMsg bz
    = inl (GetSnapshotChunkResponse (Some (chunk_response 1 checksum)))
    /\ len checksum = sha1_Size
    /\ sha1_Sum [x2a] <> checksum
    /\ Receive ChunkChannel P bz (reactor true (restoring 1)) =
       (Returned tt,
        sent P ChunkChannel (chunk_request (snapshot 10 1 2) 2)
          (with_sync (restoring 2) [apply_chunk_call 10 1 1 [x2a]]
             (reactor true (restoring 1)))).
Proof.
  destruct (list_eq_dec Byte.byte_eq_dec (sha1_Sum [x2a]) zeros) as [E|E].
  - exists [x04; xff], ones. repeat split.
    rewrite E. discriminate.
  - exists [x04; x01], zeros. repeat split. exact E.
Qed.

(** A chunk arrives at an idle reactor. *)
Lemma chunk_response_dropped_witness :
  Receive ChunkChannel P [x04; x01] (reactor true SpecSync.Idle)
  = (Returned tt, reactor true SpecSync.Idle).
Proof.
  apply (chunk_response_dropped_when_inactive P [x04; x01]
           (Some (chunk_response 1 zeros)) (reactor true SpecSync.Idle));
    reflexivity.
Defined.

(** An empty list arrives at an idle reactor. *)
Lemma empty_list_ignored_witness :
  Receive MetadataChannel P [x02; x00] (reactor true SpecSync.Idle)
  = (Returned tt, reactor true SpecSync.Idle).
Proof.
  apply (empty_list_ignored P [x02; x00]
           {| ListSnapshotsResponseMessage.Snapshots := [] |}
           (reactor true SpecSync.Idle));
    reflexivity.
Defined.

End Scenarios.

(** ** Offers that fail *)

Section FailedOffers.

#[local] Existing Instance Scenario.failing_app.
#[local] Existing Instance Scenario.imports.

Import Scenario.

(** C1 as stated fails, twice over.  The sync is idle, the list is valid
    and holds (10,1), which the application accepts whenever it is offered;
    the offer of (10,2), made first, fails, and the reactor panics: the sync
    stays idle, nothing is sent and (10,1) is never offered.  And with a
    sync that has failed, neither active nor done, the one snapshot of the
    list is never offered to the application that would accept it: the
    reactor panics with the error of [Start]. *)
Lemma C1_failed_offer_panics :
  (let ssR := reactor true SpecSync.Idle in
   IsActive (sync ssR) = false
   /\ IsDone (sync ssR) = false
   /\ decodeMsg [x02; x03] = inl (ListSnapshotsResponse (Some candidates))
   /\ ValidateBasic (ListSnapshotsResponse (Some candidates)) = None
   /\ In (Scenario.snapshot 10 1 2)
        (ListSnapshotsResponseMessage.Snapshots candidates)
   /\ (forall calls,
          on_offer_snapshot calls (Scenario.snapshot 10 1 2) = inl Accept)
   /\ Receive MetadataChannel P [x02; x03] ssR
      = (Panicked (panic_error (errors_New "app down")),
         with_sync SpecSync.Idle
           [offer_snapshot_call (Scenario.snapshot 10 2 2)] ssR)
   /\ wire (snd (Receive MetadataChannel P [x02; x03] ssR)) = [])
  /\ (let ssR := reactor true (SpecSync.Failed (errors_New "chunk rejected")) in
      IsActive (sync ssR) = false
      /\ IsDone (sync ssR) = false
      /\ decodeMsg [x02; x01] = inl single
      /\ ValidateBasic single = None
      /\ (forall calls,
             on_offer_snapshot calls (Scenario.snapshot 10 1 2) = inl Accept)
      /\ Receive MetadataChannel P [x02; x01] ssR
         = (Panicked
              (panic_error (errors_New "no snapshot can be started")),
            ssR)).
Proof.
  split; cbv zeta; repeat split; try reflexivity.
  simpl. tauto.
Qed.

End FailedOffers.

(** * More properties of the reactor *)

Section MoreReceiveFacts.

Context {App Sync : Type}.
Context {conn_ops : AppConnSnapshot App}.
Context {sync_ops : SyncMachine App Sync}.
Context {imports : Imports}.

Implicit Types ssR : Reactor App Sync.

Lemma sent_wire peer ch bz ssR :
  wire (sent peer ch bz ssR) = wire ssR ++ [Send peer ch bz].
Proof. reflexivity. Qed.

Lemma solicit_sends peer (isRunning : list bool) :
  forall ssR,
    IsActive (sync ssR) || IsDone (sync ssR) = false ->
    solicit peer isRunning ssR =
    (Returned tt,
     {| running := running ssR; config := config ssR; conn := conn ssR;
        sync := sync ssR;
        wire := wire ssR
                ++ repeat (Send peer MetadataChannel
                             (MustMarshalBinaryBare
                                (ListSnapshotsRequest
                                   (Some ListSnapshotsRequestMessage.mk))))
                     (rounds isRunning) |}).
Proof.
  induction isRunning as [|up later IH]; intros ssR Hidle.
  - destruct ssR. cbn. rewrite app_nil_r. reflexivity.
  - apply orb_false_elim in Hidle. destruct Hidle as [Hact Hdone].
    cbn [solicit]. unfold bind at 1 2. unfold sync_get at 1 2.
    rewrite Hact, Hdone. destruct up; cbn [andb negb rounds].
    + unfold bind, peer_Send, record. rewrite IH.
      * cbn [running config conn sync wire repeat].
        rewrite <- app_assoc. reflexivity.
      * cbn [sync]. rewrite Hact, Hdone. reflexivity.
    + destruct ssR. cbn. rewrite app_nil_r. reflexivity.
Qed.

(** [AddPeer] only ever sends the empty [ListSnapshotsRequest] to the new
    peer on the metadata channel: one per round in which the peer is found
    running, none from the first round in which it is not, and none at all
    once the sync is active or done.  The sync, the application and the
    configuration are not touched. *)
Theorem AddPeer_sends_one_request_per_round peer (isRunning : list bool) ssR :
  AddPeer peer isRunning ssR =
  (Returned tt,
   {| running := running ssR; config := config ssR; conn := conn ssR;
      sync := sync ssR;
      wire := wire ssR
              ++ repeat (Send peer MetadataChannel
                           (MustMarshalBinaryBare
                              (ListSnapshotsRequest
                                 (Some ListSnapshotsRequestMessage.mk))))
                   (if IsActive (sync ssR) || IsDone (sync ssR)
                    then 0%nat else rounds isRunning) |}).
Proof.
  unfold AddPeer.
  destruct (IsActive (sync ssR) || IsDone (sync ssR)) eqn:Hbusy.
  - destruct isRunning as [|up later]; destruct ssR; cbn in *.
    + rewrite app_nil_r. reflexivity.
    + unfold bind, sync_get. cbn.
      destruct (IsActive sync0); destruct (IsDone sync0);
        try discriminate; rewrite andb_false_r || rewrite ?andb_false_r;
        cbn; rewrite ?app_nil_r; try reflexivity;
        destruct up; cbn; rewrite ?app_nil_r; reflexivity.
  - apply solicit_sends. exact Hbusy.
Qed.

(** The offer loop, whatever [Sync] does: it ends quietly, or with the one
    chunk request, or in a panic on an error that is no rejection. *)
Lemma offer_each_effects src (l : list Snapshot.t) :
  forall ssR,
  exists out X,
    offer_each src l ssR = (out, X)
    /\ running X = running ssR
    /\ config X = config ssR
    /\ ((out = Returned tt /\ wire X = wire ssR)
        \/ (out = Returned tt
            /\ wire X =
               wire ssR
               ++ [Send src ChunkChannel
                     (MustMarshalBinaryBare (request_for (NextChunk (sync X))))])
        \/ (exists err,
              out = Panicked (panic_error err)
              /\ is_rejection err = false
              /\ wire X = wire ssR)).
Proof.
  induction l as [|x rest IH]; intros ssR.
  - exists (Returned tt), ssR. cbn. tauto.
  - cbn [offer_each]. unfold bind at 1. unfold sync_Start.
    destruct (Start x (sync ssR) (conn ssR)) as [[err sy] app] eqn:Hstart.
    destruct (IH (with_sync sy app ssR))
      as (out & X & Hrest & Hrun & Hcfg & Hwire).
    assert (Hnext :
      exists out X,
        offer_each src rest (with_sync sy app ssR) = (out, X)
        /\ running X = running ssR
        /\ config X = config ssR
        /\ ((out = Returned tt /\ wire X = wire ssR)
            \/ (out = Returned tt
                /\ wire X =
                   wire ssR
                   ++ [Send src ChunkChannel
                         (MustMarshalBinaryBare
                            (request_for (NextChunk (sync X))))])
            \/ (exists err,
                  out = Panicked (panic_error err)
                  /\ is_rejection err = false
                  /\ wire X = wire ssR))).
    { exists out, X. repeat split; assumption. }
    destruct err as [err|].
    + destruct err; try exact Hnext;
        eexists _, _; (split; [reflexivity |]);
        (split; [reflexivity |]); (split; [reflexivity |]);
        right; right; eexists; repeat split; reflexivity.
    + unfold bind, sync_get. cbn [sync with_sync].
      destruct (NextChunk sy) as [[height format] chunk] eqn:Hn.
      eexists _, _. split; [reflexivity |].
      split; [reflexivity |]. split; [reflexivity |].
      right; left. split; [reflexivity |].
      cbn [wire sent with_sync sync peer_Send record snd].
      rewrite Hn. reflexivity.
Qed.

(** For any [Sync], a [ListSnapshotsResponse] makes the reactor send at most
    one message, the request for the chunk that [NextChunk] names, to the
    responding peer on the chunk channel.  Otherwise it changes nothing on
    the wire, except that an invalid response gets its sender stopped; and
    if it panics, it is on an error of [Start] that is not a rejection. *)
Theorem list_response_sends_at_most_one_request chID src bz ssR m :
  decodeMsg bz = inl (ListSnapshotsResponse m) ->
  exists out X,
    Receive chID src bz ssR = (out, X)
    /\ running X = running ssR
    /\ config X = config ssR
    /\ ((out = Returned tt /\ wire X = wire ssR)
        \/ (exists err,
              ValidateBasic (ListSnapshotsResponse m) = Some err
              /\ out = Returned tt /\ X = stopped src err ssR)
        \/ (out = Returned tt
            /\ chID = MetadataChannel
            /\ wire X =
               wire ssR
               ++ [Send src ChunkChannel
                     (MustMarshalBinaryBare (request_for (NextChunk (sync X))))])
        \/ (exists err,
              out = Panicked (panic_error err)
              /\ is_rejection err = false
              /\ wire X = wire ssR)).
Proof.
  intros Hdec.
  assert (Hquiet :
    exists out X,
      (Returned tt, ssR) = (out, X)
      /\ running X = running ssR
      /\ config X = config ssR
      /\ ((out = Returned tt /\ wire X = wire ssR)
          \/ (exists err,
                ValidateBasic (ListSnapshotsResponse m) = Some err
                /\ out = Returned tt /\ X = stopped src err ssR)
          \/ (out = Returned tt
              /\ chID = MetadataChannel
              /\ wire X =
                 wire ssR
                 ++ [Send src ChunkChannel
                       (MustMarshalBinaryBare
                          (request_for (NextChunk (sync X))))])
          \/ (exists err,
                out = Panicked (panic_error err)
                /\ is_rejection err = false
                /\ wire X = wire ssR))).
  { exists (Returned tt), ssR. tauto. }
  assert (Hcase : running ssR = true \/ running ssR = false)
    by (destruct (running ssR); auto).
  destruct Hcase as [Hrun|Hrun];
    [| rewrite (Receive_not_running chID src bz ssR Hrun); exact Hquiet].
  rewrite (Receive_decoded chID src bz ssR _ Hrun Hdec).
  destruct (ValidateBasic (ListSnapshotsResponse m)) as [err|] eqn:Hok.
  { eexists _, _. split; [reflexivity |].
    split; [reflexivity |]. split; [reflexivity |].
    right; left. exists err. repeat split. }
  unfold dispatch.
  destruct (Byte.eqb chID MetadataChannel) eqn:Hch;
    [| destruct (Byte.eqb chID ChunkChannel); exact Hquiet].
  apply Byte.byte_dec_bl in Hch.
  unfold Receive_ListSnapshotsResponse, bind, sync_get.
  destruct (IsActive (sync ssR) || IsDone (sync ssR)); [exact Hquiet |].
  destruct m as [m|]; [| discriminate Hok].
  destruct (len (ListSnapshotsResponseMessage.Snapshots m) =? 0)%nat;
    [exact Hquiet |].
  destruct (offer_each_effects src
              (sort_Slice snapshot_less
                 (ListSnapshotsResponseMessage.Snapshots m)) ssR)
    as (out & X & Hrun' & Hr & Hc & Hcases).
  exists out, X. split; [exact Hrun' |].
  split; [exact Hr |]. split; [exact Hc |].
  destruct Hcases as [H|[[H1 H2]|H]]; [left; exact H | | right; right; right; exact H].
  right; right; left. repeat split; assumption.
Qed.

(** When [Receive] panics, the message was decoded and valid, and the panic
    came out of a collaborator: an error of [Start] on a list response, a
    failed or empty chunk load on a chunk request, an error of [Apply] (or
    a sync that reports neither done nor a snapshot) on a chunk response.
    A list request never panics, a nil pointer inside a message never
    does, and a panic leaves nothing sent and no peer stopped. *)
Theorem panic_comes_from_a_collaborator chID src bz ssR v X :
  Receive chID src bz ssR = (Panicked v, X) ->
  running ssR = true
  /\ wire X = wire ssR
  /\ exists msg,
       decodeMsg bz = inl msg
       /\ ValidateBasic msg = None
       /\ match msg with
          | ListSnapshotsRequest _ => False
          | ListSnapshotsResponse _ =>
              chID = MetadataChannel
              /\ exists err, v = panic_error err /\ is_rejection err = false
          | GetSnapshotChunkRequest _ =>
              chID = ChunkChannel
              /\ sync X = sync ssR
              /\ (v = panic_string "No chunk"
                  \/ exists err, v = panic_error err)
          | GetSnapshotChunkResponse _ =>
              chID = ChunkChannel
              /\ IsActive (sync ssR) = true
              /\ ((exists err, v = panic_error err)
                  \/ (v = nil_dereference
                      /\ snapshot (sync X) = None
                      /\ IsDone (sync X) = false))
          end.
Proof.
  intros Hpanic.
  assert (Hcase : running ssR = true \/ running ssR = false)
    by (destruct (running ssR); auto).
  destruct Hcase as [Hrun|Hrun];
    [| rewrite (Receive_not_running chID src bz ssR Hrun) in Hpanic;
       discriminate].
  destruct (decodeMsg bz) as [msg|err] eqn:Hdec;
    [| rewrite (Receive_undecodable chID src bz ssR err Hrun Hdec) in Hpanic;
       discriminate].
  rewrite (Receive_decoded chID src bz ssR msg Hrun Hdec) in Hpanic.
  destruct (ValidateBasic msg) as [err|] eqn:Hok; [discriminate |].
  unfold dispatch in Hpanic.
  destruct (Byte.eqb chID MetadataChannel) eqn:Hmeta.
  - apply Byte.byte_dec_bl in Hmeta.
    destruct msg as [m|m|m|m]; try discriminate.
    + rewrite Receive_ListSnapshotsRequest_eq in Hpanic.
      destruct (ListSnapshotsSync (conn ssR)) as [[resp|err] app];
        discriminate.
    + unfold Receive_ListSnapshotsResponse, bind, sync_get in Hpanic.
      destruct (IsActive (sync ssR) || IsDone (sync ssR)); [discriminate |].
      destruct m as [m|]; [| discriminate Hok].
      destruct (len (ListSnapshotsResponseMessage.Snapshots m) =? 0)%nat;
        [discriminate |].
      destruct (offer_each_effects src
                  (sort_Slice snapshot_less
                     (ListSnapshotsResponseMessage.Snapshots m)) ssR)
        as (out & X' & Hrun' & _ & _ & Hcases).
      rewrite Hrun' in Hpanic. injection Hpanic as -> ->.
      destruct Hcases as [[H _]|[[H _]|(err & H & Hrej & Hwire)]];
        try discriminate.
      injection H as ->.
      split; [exact Hrun |]. split; [exact Hwire |].
      eexists. split; [reflexivity |]. split; [exact Hok |].
      split; [exact Hmeta |]. exists err. split; [reflexivity | exact Hrej].
  - destruct (Byte.eqb chID ChunkChannel) eqn:Hchunk; [| discriminate].
    apply Byte.byte_dec_bl in Hchunk.
    destruct msg as [m|m|m|m]; try discriminate.
    + destruct m as [m|]; [| discriminate Hok].
      rewrite Receive_GetSnapshotChunkRequest_eq in Hpanic.
      destruct (GetSnapshotChunkSync _ (conn ssR)) as [[resp|err] app];
        [destruct (types.Chunk resp); [discriminate |] |];
        injection Hpanic as <- <-;
        (split; [exact Hrun |]); (split; [reflexivity |]);
        eexists; (split; [reflexivity |]); (split; [exact Hok |]);
        (split; [exact Hchunk |]); (split; [reflexivity |]).
      * left. reflexivity.
      * right. exists err. reflexivity.
    + destruct m as [m|]; [| discriminate Hok].
      destruct (IsActive (sync ssR)) eqn:Hact.
      * rewrite (Receive_GetSnapshotChunkResponse_eq src m ssR Hact)
          in Hpanic.
        destruct (Apply _ (sync ssR) (conn ssR)) as [[[err|] sy] app].
        { injection Hpanic as <- <-.
          split; [exact Hrun |]. split; [reflexivity |].
          eexists. split; [reflexivity |]. split; [exact Hok |].
          split; [exact Hchunk |]. split; [reflexivity |].
          left. exists err. reflexivity. }
        destruct (IsDone sy) eqn:Hdone; [discriminate |].
        destruct (snapshot sy) eqn:Hsnap; [discriminate |].
        injection Hpanic as <- <-.
        split; [exact Hrun |]. split; [reflexivity |].
        eexists. split; [reflexivity |]. split; [exact Hok |].
        split; [exact Hchunk |]. split; [reflexivity |].
        right. cbn [sync with_sync]. repeat split; assumption.
      * unfold Receive_GetSnapshotChunkResponse, bind, sync_get in Hpanic.
        rewrite Hact in Hpanic. discriminate.
Qed.

(** A valid message on a channel whose switch has no case for its type is
    ignored: a list of snapshots on the chunk channel starts no restore, a
    chunk on the metadata channel is not applied, and a channel that is
    neither of the two handles nothing. *)
Theorem misrouted_message_ignored chID src bz ssR msg :
  running ssR = true ->
  decodeMsg bz = inl msg ->
  ValidateBasic msg = None ->
  handles chID msg = false ->
  Receive chID src bz ssR = (Returned tt, ssR).
Proof.
  intros Hrun Hdec Hok Hno.
  rewrite (Receive_decoded chID src bz ssR msg Hrun Hdec), Hok.
  unfold dispatch. unfold handles in Hno.
  destruct (Byte.eqb chID MetadataChannel);
    destruct (Byte.eqb chID ChunkChannel);
    destruct msg; try discriminate; reflexivity.
Qed.

Lemma copy_into_array_length (n : nat) (src : list byte) :
  len (copy_into_array n src) = n.
Proof.
  unfold copy_into_array. rewrite length_app, repeat_length, length_firstn.
  lia.
Qed.

Lemma copy_into_array_exact (n : nat) (src : list byte) :
  len src = n -> copy_into_array n src = src.
Proof.
  intros Hn. unfold copy_into_array.
  rewrite firstn_all2 by lia. rewrite Hn, Nat.sub_diag. apply app_nil_r.
Qed.

Lemma copy_into_array_prefix (n : nat) (src : list byte) :
  firstn (len src) (copy_into_array n src) = firstn n src.
Proof.
  unfold copy_into_array.
  destruct (Nat.le_gt_cases (len src) n) as [Hle|Hgt].
  - rewrite (firstn_all2 src) by lia.
    rewrite firstn_app, firstn_all, Nat.sub_diag. cbn. apply app_nil_r.
  - rewrite firstn_all2; [| rewrite length_app, repeat_length, length_firstn; lia].
    rewrite length_firstn.
    replace (n - Nat.min n (len src))%nat with 0%nat by lia.
    apply app_nil_r.
Qed.

Lemma copy_into_array_padding (n : nat) (src : list byte) :
  skipn (len src) (copy_into_array n src) = repeat x00 (n - len src).
Proof.
  unfold copy_into_array.
  destruct (Nat.le_gt_cases (len src) n) as [Hle|Hgt].
  - rewrite (firstn_all2 src) by lia.
    rewrite skipn_app, skipn_all, Nat.sub_diag. reflexivity.
  - rewrite skipn_all2; [| rewrite length_app, repeat_length, length_firstn; lia].
    replace (n - len src)%nat with 0%nat by lia. reflexivity.
Qed.

(** On a valid chunk request for which the application returns a chunk,
    the reactor answers the requesting peer with that chunk as the
    application gave it (it does not compare it with the request), except
    for the checksum, which is always exactly 20 bytes: the application's,
    cut after 20 bytes or padded with zeros.  What is sent passes
    [ValidateBasic] exactly when the application's chunk has a non-zero
    height and a non-zero index. *)
Theorem served_chunk_is_the_applications src bz m ssR c app :
  running ssR = true ->
  decodeMsg bz = inl (GetSnapshotChunkRequest (Some m)) ->
  ValidateBasic (GetSnapshotChunkRequest (Some m)) = None ->
  GetSnapshotChunkSync
    {| types.req_Height := GetSnapshotChunkRequestMessage.Height m;
       types.req_Format := GetSnapshotChunkRequestMessage.Format m;
       types.req_Chunk := GetSnapshotChunkRequestMessage.Chunk m |}
    (conn ssR)
  = (inl {| types.Chunk := Some c |}, app) ->
  exists chunk,
    Receive ChunkChannel src bz ssR =
    (Returned tt,
     sent src ChunkChannel
       (MustMarshalBinaryBare
          (GetSnapshotChunkResponse
             (Some {| GetSnapshotChunkResponseMessage.Chunk := chunk |})))
       (with_sync (sync ssR) app ssR))
    /\ SnapshotChunk.Height chunk = types.chunk_Height c
    /\ SnapshotChunk.Format chunk = types.chunk_Format c
    /\ SnapshotChunk.Chunk chunk = types.chunk_Chunk c
    /\ SnapshotChunk.Data chunk = types.chunk_Data c
    /\ len (SnapshotChunk.Checksum chunk) = sha1_Size
    /\ firstn (len (types.chunk_Checksum c)) (SnapshotChunk.Checksum chunk)
       = firstn sha1_Size (types.chunk_Checksum c)
    /\ skipn (len (types.chunk_Checksum c)) (SnapshotChunk.Checksum chunk)
       = repeat x00 (sha1_Size - len (types.chunk_Checksum c))
    /\ (ValidateBasic
          (GetSnapshotChunkResponse
             (Some {| GetSnapshotChunkResponseMessage.Chunk := chunk |}))
        = None
        <-> types.chunk_Height c <> 0 /\ types.chunk_Chunk c <> 0).
Proof.
  intros Hrun Hdec Hok Happ.
  exists (to_SnapshotChunk c).
  split.
  { rewrite (Receive_decoded _ src bz ssR _ Hrun Hdec), Hok.
    rewrite dispatch_chunk, Receive_GetSnapshotChunkRequest_eq, Happ.
    reflexivity. }
  repeat (split; [reflexivity |]).
  split; [apply copy_into_array_length |].
  split; [apply copy_into_array_prefix |].
  split; [apply copy_into_array_padding |].
  cbn. destruct (Z.eqb_spec (types.chunk_Height c) 0);
    destruct (Z.eqb_spec (types.chunk_Chunk c) 0);
    split; intros; try discriminate; try tauto.
Qed.

(** On a valid list request that the application answers, the reactor
    sends the application's snapshots as they are: the response it sends
    passes [ValidateBasic] exactly when none of them has height 0, so a
    snapshot at height 0 is sent all the same. *)
Theorem served_list_is_the_applications src bz m ssR resp app :
  running ssR = true ->
  decodeMsg bz = inl (ListSnapshotsRequest m) ->
  ListSnapshotsSync (conn ssR) = (inl resp, app) ->
  exists snapshots,
    Receive MetadataChannel src bz ssR =
    (Returned tt,
     sent src MetadataChannel
       (MustMarshalBinaryBare
          (ListSnapshotsResponse
             (Some {| ListSnapshotsResponseMessage.Snapshots := snapshots |})))
       (with_sync (sync ssR) app ssR))
    /\ map Snapshot.Height snapshots = map types.Height (types.Snapshots resp)
    /\ map Snapshot.Format snapshots = map types.Format (types.Snapshots resp)
    /\ map Snapshot.Chunks snapshots = map types.Chunks (types.Snapshots resp)
    /\ map Snapshot.Metadata snapshots
       = map types.Metadata (types.Snapshots resp)
    /\ (ValidateBasic
          (ListSnapshotsResponse
             (Some {| ListSnapshotsResponseMessage.Snapshots := snapshots |}))
        = None
        <-> Forall (fun s => types.Height s <> 0) (types.Snapshots resp)).
Proof.
  intros Hrun Hdec Happ.
  exists (map to_Snapshot (types.Snapshots resp)).
  split.
  { rewrite (Receive_decoded _ src bz ssR _ Hrun Hdec).
    cbn [ValidateBasic ListSnapshotsRequestMessage.ValidateBasic].
    rewrite dispatch_metadata, Receive_ListSnapshotsRequest_eq, Happ.
    reflexivity. }
  rewrite !map_map. repeat (split; [reflexivity |]).
  cbn [ValidateBasic ListSnapshotsResponseMessage.ValidateBasic
         ListSnapshotsResponseMessage.Snapshots].
  rewrite validate_each_none, Forall_map. reflexivity.
Qed.

(** The size test of [decodeMsg] is exact: bytes of length up to and
    including [maxMsgSize] are handed to the codec, whose answer is
    returned as it is. *)
Theorem decodeMsg_within_size (bz : list byte) :
  Z.of_nat (len bz) <= maxMsgSize ->
  decodeMsg bz = UnmarshalBinaryBare bz.
Proof.
  intros Hlen. unfold decodeMsg.
  destruct (Z.gtb_spec (Z.of_nat (len bz)) maxMsgSize); [lia | reflexivity].
Qed.

End MoreReceiveFacts.

(** The comparator that [Receive] sorts with puts [a] before [b] exactly
    when [a] has the greater height or, at the same height, a format that
    is not smaller.  It is total and transitive but not strict: a snapshot
    is "less" than itself, and two snapshots with the same height and
    format are each "less" than the other whatever their chunks and
    metadata. *)
Theorem snapshot_less_orders_by_height_then_format :
  (forall a b,
      snapshot_less a b = true
      <-> Snapshot.Height b < Snapshot.Height a
          \/ (Snapshot.Height a = Snapshot.Height b
              /\ Snapshot.Format b <= Snapshot.Format a))
  /\ (forall a b, snapshot_less a b = true \/ snapshot_less b a = true)
  /\ (forall a b c,
        snapshot_less a b = true -> snapshot_less b c = true ->
        snapshot_less a c = true)
  /\ (forall a b,
        snapshot_less a b = true /\ snapshot_less b a = true
        <-> Snapshot.Height a = Snapshot.Height b
            /\ Snapshot.Format a = Snapshot.Format b).
Proof.
  split; [exact snapshot_less_spec |].
  split.
  { intros a b. destruct (snapshot_less a b) eqn:E; [left; reflexivity |].
    right. apply snapshot_less_total. exact E. }
  split; [exact snapshot_less_trans |].
  intros a b. rewrite !snapshot_less_spec. lia.
Qed.

(** * Properties of the state *)

Section StateFacts.

Context {tys : state.Types}.
Context {imports : state.Imports}.

Import state.

Lemma validators_to_proto_converts (field : option types_ValidatorSet) :
  converts field ->
  validators_to_proto field = inl (filled field, proto_of field).
Proof.
  destruct field as [v|]; cbn; [| reflexivity].
  destruct (ValidatorSet_ToProto v) as [vals err]. cbn.
  intros ->. reflexivity.
Qed.

(** [ToProto] never fails on a [nil] validator set, and it writes to its
    receiver: when the block ID converts and no validator set that is there
    fails to, it succeeds, the protobuf state carries the converted sets
    ([nil] where the state had [nil]), and in the receiver every [nil]
    validator set has become a pointer to the zero set, so the state is no
    longer [IsEmpty] even if it was.  All other fields are copied as they
    are. *)
Theorem ToProto_fills_nil_validator_sets (st : State) bip :
  BlockID_ToProto (LastBlockID st) = Some bip ->
  converts (Validators st) ->
  converts (NextValidators st) ->
  converts (LastValidators st) ->
  let st' :=
    mkState (Version st) (ChainID st) (LastBlockHeight st) (LastBlockID st)
      (LastBlockTime st) (filled (NextValidators st))
      (filled (Validators st)) (filled (LastValidators st))
      (LastHeightValidatorsChanged st) (ConsensusParams st)
      (LastHeightConsensusParamsChanged st) (LastResultsHash st)
      (AppHash st) in
  ToProto (Some st) =
  (Returned
     (Some {| tmstate.Version_ := Version st;
              tmstate.ChainID := ChainID st;
              tmstate.LastBlockHeight := LastBlockHeight st;
              tmstate.LastBlockID := bip;
              tmstate.LastBlockTime := LastBlockTime st;
              tmstate.NextValidators := proto_of (NextValidators st);
              tmstate.Validators := proto_of (Validators st);
              tmstate.LastValidators := proto_of (LastValidators st);
              tmstate.LastHeightValidatorsChanged :=
                LastHeightValidatorsChanged st;
              tmstate.ConsensusParams := ConsensusParams st;
              tmstate.LastHeightConsensusParamsChanged :=
                LastHeightConsensusParamsChanged st;
              tmstate.LastResultsHash := LastResultsHash st;
              tmstate.AppHash := AppHash st |},
      None),
   Some st')
  /\ IsEmpty st' = false.
Proof.
  intros Hbip Hv Hn Hl st'. split.
  - unfold ToProto. rewrite Hbip.
    rewrite (validators_to_proto_converts _ Hv).
    cbn [NextValidators LastValidators set_Validators set_NextValidators].
    rewrite (validators_to_proto_converts _ Hn).
    cbn [NextValidators LastValidators set_Validators set_NextValidators].
    rewrite (validators_to_proto_converts _ Hl).
    reflexivity.
  - unfold IsEmpty, st'. cbn. destruct (Validators st); reflexivity.
Qed.

(** Whatever [ToProto] returns, short of a panic on the block ID, a state
    that was [IsEmpty] is not any more: its [Validators] was replaced
    before any conversion could fail. *)
Theorem ToProto_makes_an_empty_state_non_empty (st : State) bip :
  BlockID_ToProto (LastBlockID st) = Some bip ->
  IsEmpty st = true ->
  exists result st',
    ToProto (Some st) = (Returned result, Some st')
    /\ Validators st' = Some ValidatorSet_zero
    /\ IsEmpty st' = false.
Proof.
  intros Hbip Hempty. unfold IsEmpty in Hempty.
  destruct (Validators st) eqn:Hv; [discriminate |].
  unfold ToProto. rewrite Hbip, Hv. cbn [validators_to_proto].
  destruct (validators_to_proto (NextValidators (set_Validators _ st)))
    as [[field nVals]|err].
  - destruct (validators_to_proto
                (LastValidators (set_NextValidators field _)))
      as [[field' lVals]|err];
      eexists _, _; (split; [reflexivity |]); split; reflexivity.
  - eexists _, _. split; [reflexivity |]. split; reflexivity.
Qed.

(** [FromProto] refuses a [nil] protobuf state without touching the
    receiver.  Otherwise it never writes [LastBlockID] and [LastBlockTime]:
    on success every other field comes from the protobuf state and the
    three validator sets are set, those two stay what the receiver had.
    When a validator set fails to convert, the error is returned after
    [Version], [ChainID] and [LastBlockHeight] have been overwritten, and
    nothing else has. *)
Theorem FromProto_leaves_block_id_and_time (st : State) :
  FromProto (Some st) None = (Returned (Some (errors_New "nil State")), Some st)
  /\ forall pb : tmstate.State,
       exists err st',
         FromProto (Some st) (Some pb) = (Returned err, Some st')
         /\ LastBlockID st' = LastBlockID st
         /\ LastBlockTime st' = LastBlockTime st
         /\ Version st' = tmstate.Version_ pb
         /\ ChainID st' = tmstate.ChainID pb
         /\ LastBlockHeight st' = tmstate.LastBlockHeight pb
         /\ match err with
            | None =>
                Validators st'
                = Some (fst (ValidatorSet_FromProto (tmstate.Validators pb)))
                /\ NextValidators st'
                   = Some (fst (ValidatorSet_FromProto
                                  (tmstate.NextValidators pb)))
                /\ LastValidators st'
                   = Some (fst (ValidatorSet_FromProto
                                  (tmstate.LastValidators pb)))
                /\ LastHeightValidatorsChanged st'
                   = tmstate.LastHeightValidatorsChanged pb
                /\ ConsensusParams st' = tmstate.ConsensusParams pb
                /\ LastHeightConsensusParamsChanged st'
                   = tmstate.LastHeightConsensusParamsChanged pb
                /\ LastResultsHash st' = tmstate.LastResultsHash pb
                /\ AppHash st' = tmstate.AppHash pb
            | Some _ =>
                Validators st' = Validators st
                /\ NextValidators st' = NextValidators st
                /\ LastValidators st' = LastValidators st
                /\ LastHeightValidatorsChanged st'
                   = LastHeightValidatorsChanged st
                /\ ConsensusParams st' = ConsensusParams st
                /\ LastHeightConsensusParamsChanged st'
                   = LastHeightConsensusParamsChanged st
                /\ LastResultsHash st' = LastResultsHash st
                /\ AppHash st' = AppHash st
            end.
Proof.
  split; [reflexivity |].
  intros pb. unfold FromProto.
  destruct (ValidatorSet_FromProto (tmstate.Validators pb))
    as [vals [e1|]];
    [eexists _, _; split; [reflexivity |]; cbn; repeat split |].
  destruct (ValidatorSet_FromProto (tmstate.NextValidators pb))
    as [nVals [e2|]];
    [eexists _, _; split; [reflexivity |]; cbn; repeat split |].
  destruct (ValidatorSet_FromProto (tmstate.LastValidators pb))
    as [lVals [e3|]];
    eexists _, _; (split; [reflexivity |]); cbn; repeat split.
Qed.

(** A state whose three validator sets are there and come back from their
    protobuf form survives [ToProto] then [FromProto], except for
    [LastBlockID] and [LastBlockTime]: these are whatever the state that
    receives [FromProto] had before.  [ToProto] leaves such a state as it
    is. *)
Theorem ToProto_FromProto_round_trip (s r : State) v nv lv bip :
  BlockID_ToProto (LastBlockID s) = Some bip ->
  Validators s = Some v ->
  NextValidators s = Some nv ->
  LastValidators s = Some lv ->
  round_trips v -> round_trips nv -> round_trips lv ->
  exists sm,
    ToProto (Some s) = (Returned (Some sm, None), Some s)
    /\ FromProto (Some r) (Some sm) =
       (Returned None,
        Some
          (mkState (Version s) (ChainID s) (LastBlockHeight s)
             (LastBlockID r) (LastBlockTime r) (NextValidators s)
             (Validators s) (LastValidators s)
             (LastHeightValidatorsChanged s) (ConsensusParams s)
             (LastHeightConsensusParamsChanged s) (LastResultsHash s)
             (AppHash s))).
Proof.
  intros Hbip Hv Hn Hl [Hv1 Hv2] [Hn1 Hn2] [Hl1 Hl2].
  destruct s as [ver cid h bid bt nvs vs lvs hv cp hc rh ah].
  cbn in Hbip, Hv, Hn, Hl. subst nvs vs lvs.
  destruct (ValidatorSet_ToProto v) as [pv ev] eqn:Ev.
  destruct (ValidatorSet_ToProto nv) as [pnv en] eqn:En.
  destruct (ValidatorSet_ToProto lv) as [plv el] eqn:El.
  cbn in Hv1, Hn1, Hl1, Hv2, Hn2, Hl2. subst ev en el.
  eexists. split.
  - unfold ToProto. cbn [LastBlockID]. rewrite Hbip.
    cbn [Validators validators_to_proto]. rewrite Ev.
    cbn [NextValidators set_Validators validators_to_proto]. rewrite En.
    cbn [LastValidators set_Validators set_NextValidators
           validators_to_proto].
    rewrite El. reflexivity.
  - unfold FromProto. cbn. rewrite Hv2, Hn2, Hl2. reflexivity.
Qed.

(** ** The median time *)

Lemma int64_add_l (a b : Z) : int64 (int64 a + b) = int64 (a + b).
Proof.
  unfold int64. f_equal.
  replace ((a + 2 ^ 63) mod 2 ^ 64 - 2 ^ 63 + b + 2 ^ 63)
    with ((a + 2 ^ 63) mod 2 ^ 64 + b) by ring.
  rewrite Zplus_mod_idemp_l. f_equal. ring.
Qed.

Lemma int64_small (a : Z) : - 2 ^ 63 <= a < 2 ^ 63 -> int64 a = a.
Proof.
  intros Ha. unfold int64. rewrite Z.mod_small by lia. ring.
Qed.

Lemma int64_idem (a : Z) : int64 (int64 a) = int64 a.
Proof.
  replace (int64 a) with (int64 a + 0) at 1 by ring.
  rewrite int64_add_l. f_equal. ring.
Qed.

Lemma weigh_counts (set : types_ValidatorSet)
  (signatures : list types.CommitSig) :
  (forall addr i, ValidatorSet_GetByAddress set addr <> (i, None, true)) ->
  forall total,
    total = int64 total ->
    weigh (Some set) signatures total =
    Returned
      (map (weighted_entry (Some set)) signatures,
       int64 (total
              + weight_sum (map (weighted_entry (Some set)) signatures))).
Proof.
  intros Hok.
  induction signatures as [|sig rest IH]; intros total Htotal.
  - cbn. rewrite Z.add_0_r, <- Htotal. reflexivity.
  - cbn [weigh map]. unfold weighted_entry at 1 3.
    destruct (CommitSig_Absent sig).
    + rewrite (IH total Htotal). reflexivity.
    + destruct (ValidatorSet_GetByAddress set (types.ValidatorAddress sig))
        as [[i val] ok] eqn:Hget.
      destruct ok.
      * destruct val as [val|]; [| elim (Hok _ _ Hget)].
        rewrite IH by (symmetry; apply int64_idem).
        cbn [keep weight_sum tmtime.Weight].
        rewrite int64_add_l, Z.add_assoc. reflexivity.
      * destruct val; rewrite (IH total Htotal); reflexivity.
Qed.

Lemma weigh_nil_all_absent (signatures : list types.CommitSig) total :
  Forall (fun sig => CommitSig_Absent sig = true) signatures ->
  weigh None signatures total =
  Returned (map (fun _ => None) signatures, total).
Proof.
  induction 1 as [|sig rest Hsig _ IH]; cbn [weigh map]; [reflexivity |].
  rewrite Hsig, IH. reflexivity.
Qed.

Lemma weigh_nil_some_present (signatures : list types.CommitSig) total :
  Exists (fun sig => CommitSig_Absent sig = false) signatures ->
  weigh None signatures total = Panicked nil_dereference.
Proof.
  induction signatures as [|sig rest IH]; intros Hex.
  - inversion Hex.
  - cbn [weigh]. destruct (CommitSig_Absent sig) eqn:Habs; [| reflexivity].
    rewrite IH; [reflexivity |].
    inversion Hex as [? ? Hhead|? ? Htail]; subst; [congruence | exact Htail].
Qed.

(** On a validator set that is there, [MedianTime] hands [WeightedMedian]
    one entry per signature, in order: [nil] for a signature that is absent
    or whose address the set does not know, and otherwise the signature's
    timestamp weighted by the validator's voting power.  The total it
    passes is the sum of exactly those weights, wrapped to [int64]; it is
    the plain sum when that fits.  (The set is taken to return a validator
    whenever it reports that it found one.)  On a [nil] validator set
    [MedianTime] panics as soon as one signature is not absent, and passes
    only [nil] entries and the total 0 when all are absent. *)
Theorem MedianTime_weighs_the_votes_that_count
  (commit : types.Commit) (set : types_ValidatorSet) :
  (forall addr i, ValidatorSet_GetByAddress set addr <> (i, None, true)) ->
  let weightedTimes :=
    map (weighted_entry (Some set)) (types.Signatures commit) in
  MedianTime (Some commit) (Some set) =
  Returned
    (tmtime_WeightedMedian weightedTimes (int64 (weight_sum weightedTimes)))
  /\ len weightedTimes = len (types.Signatures commit)
  /\ (- 2 ^ 63 <= weight_sum weightedTimes < 2 ^ 63 ->
      MedianTime (Some commit) (Some set) =
      Returned (tmtime_WeightedMedian weightedTimes (weight_sum weightedTimes)))
  /\ (Exists (fun sig => CommitSig_Absent sig = false)
        (types.Signatures commit) ->
      MedianTime (Some commit) None = Panicked nil_dereference)
  /\ (Forall (fun sig => CommitSig_Absent sig = true)
        (types.Signatures commit) ->
      MedianTime (Some commit) None =
      Returned
        (tmtime_WeightedMedian
           (map (fun _ => None) (types.Signatures commit)) 0)).
Proof.
  intros Hok weightedTimes.
  assert (E : MedianTime (Some commit) (Some set) =
              Returned (tmtime_WeightedMedian weightedTimes
                          (int64 (weight_sum weightedTimes)))).
  { unfold MedianTime.
    rewrite (weigh_counts set _ Hok 0) by reflexivity.
    reflexivity. }
  split; [exact E |]. split; [apply length_map |].
  split; [intros Hfit; rewrite E, (int64_small _ Hfit); reflexivity |].
  split.
  - intros Hex. unfold MedianTime.
    rewrite (weigh_nil_some_present _ 0 Hex). reflexivity.
  - intros Hall. unfold MedianTime.
    rewrite (weigh_nil_all_absent _ 0 Hall). reflexivity.
Qed.

Lemma weigh_ignored validators (s : types.CommitSig)
  (rest : list types.CommitSig) total :
  ignored validators s ->
  weigh validators (s :: rest) total
  = keep None (weigh validators rest total).
Proof.
  intros [Habs|(set & -> & Hunk)]; cbn [weigh]; [rewrite Habs; reflexivity |].
  destruct (CommitSig_Absent s); [reflexivity |].
  destruct (ValidatorSet_GetByAddress set (types.ValidatorAddress s))
    as [[i val] ok].
  cbn in Hunk. subst ok. reflexivity.
Qed.

Lemma weigh_same_votes validators (a b : list types.CommitSig) :
  Forall2 (same_vote validators) a b ->
  forall total, weigh validators a total = weigh validators b total.
Proof.
  induction 1 as [|x y a b Hxy _ IH]; intros total; [reflexivity |].
  destruct Hxy as [[Hx Hy]|(Hx & Hy & Haddr & Htime)].
  - rewrite (weigh_ignored validators x a total Hx).
    rewrite (weigh_ignored validators y b total Hy).
    rewrite IH. reflexivity.
  - cbn [weigh]. rewrite Hx, Hy, Haddr, Htime.
    destruct validators as [set|]; [| reflexivity].
    destruct (ValidatorSet_GetByAddress set (types.ValidatorAddress y))
      as [[i val] ok].
    destruct ok; [destruct val |]; rewrite ?IH; reflexivity.
Qed.

(** The median does not depend on the votes that do not count: two commits
    whose signatures agree pairwise, in that both are passed over (absent,
    or from an address that is not in the validator set) or both are there
    with the same address and timestamp, get the same median time, whatever
    else the signatures carry. *)
Theorem MedianTime_ignores_votes_that_do_not_count
  (c1 c2 : types.Commit) (validators : option types_ValidatorSet) :
  Forall2 (same_vote validators) (types.Signatures c1) (types.Signatures c2) ->
  MedianTime (Some c1) validators = MedianTime (Some c2) validators.
Proof.
  intros Hsame. unfold MedianTime.
  rewrite (weigh_same_votes validators _ _ Hsame 0). reflexivity.
Qed.

(** ** Blocks and genesis *)

(** [MakeBlock] needs both [Validators] and [NextValidators]: with either
    one [nil] it panics at every height.  With both there, the block at
    height 1 carries the state's [LastBlockTime] and the commit is not
    consulted for it, so that even a [nil] commit gives a block; at any
    other height a [nil] commit panics, and the block carries the median
    time of the commit over [LastValidators] when that returns one. *)
Theorem MakeBlock_takes_its_time_from_the_state_or_the_commit
  (st : State) height txs commit evidence proposerAddress :
  (Validators st = None \/ NextValidators st = None ->
   exists v,
     MakeBlock st height txs commit evidence proposerAddress = Panicked v)
  /\ (height = 1 ->
      Validators st <> None -> NextValidators st <> None ->
      MakeBlock st height txs commit evidence proposerAddress =
      Returned (block_at st height txs commit evidence proposerAddress
                  (LastBlockTime st)))
  /\ (height <> 1 -> commit = None ->
      MakeBlock st height txs commit evidence proposerAddress =
      Panicked nil_dereference)
  /\ (height <> 1 ->
      Validators st <> None -> NextValidators st <> None ->
      forall timestamp,
        MedianTime commit (LastValidators st) = Returned timestamp ->
        MakeBlock st height txs commit evidence proposerAddress =
        Returned (block_at st height txs commit evidence proposerAddress
                    timestamp)).
Proof.
  unfold MakeBlock, block_at. split; [| split; [| split]].
  - intros Hnil.
    destruct (if height =? 1 then Returned (LastBlockTime st)
              else MedianTime commit (LastValidators st)) as [t|v];
      [| exists v; reflexivity].
    destruct (Validators st) as [vs|]; [| exists nil_dereference; reflexivity].
    destruct (NextValidators st) as [nvs|];
      [| exists nil_dereference; reflexivity].
    destruct Hnil; discriminate.
  - intros -> Hv Hn. cbn [Z.eqb Pos.eqb].
    destruct (Validators st) as [vs|]; [| contradiction].
    destruct (NextValidators st) as [nvs|]; [| contradiction].
    reflexivity.
  - intros Hh ->. destruct (Z.eqb_spec height 1); [contradiction |].
    reflexivity.
  - intros Hh Hv Hn timestamp Hmed.
    destruct (Z.eqb_spec height 1); [contradiction |].
    rewrite Hmed.
    destruct (Validators st) as [vs|]; [| contradiction].
    destruct (NextValidators st) as [nvs|]; [| contradiction].
    reflexivity.
Qed.

(** A genesis state that [MakeGenesisState] returns without error is read
    from the document as [ValidateAndComplete] left it.  It is not
    [IsEmpty], stands at height 0 with no last validators and the
    application version 0, and the block made from it at height 1 carries
    the genesis time of the completed document, whatever the commit. *)
Theorem first_block_carries_the_genesis_time genDoc (st : State) :
  MakeGenesisState genDoc = Returned (st, None) ->
  exists doc,
    GenesisDoc_ValidateAndComplete genDoc = (None, Some doc)
    /\ IsEmpty st = false
    /\ LastBlockHeight st = 0
    /\ LastValidators st = None
    /\ protoversion.App (tmstate.Consensus (Version st)) = 0
    /\ ChainID st = types.ChainID doc
    /\ AppHash st = types.AppHash doc
    /\ LastBlockTime st = types.GenesisTime doc
    /\ forall txs commit evidence proposerAddress,
         MakeBlock st 1 txs commit evidence proposerAddress =
         Returned (block_at st 1 txs commit evidence proposerAddress
                     (types.GenesisTime doc)).
Proof.
  unfold MakeGenesisState.
  destruct (GenesisDoc_ValidateAndComplete genDoc) as [[err|] [doc|]];
    try discriminate.
  destruct (types.Validators doc);
    (destruct (types.ConsensusParams doc); [| discriminate]);
    intros H; injection H as <-; exists doc; repeat split.
Qed.

(** When [MakeGenesisStateFromFile] returns an error, the state it returns
    is the zero state, and the error names the stage that failed: reading
    the file, parsing the document, or validating it, each wrapped in its
    own message around the error of that stage. *)
Theorem MakeGenesisStateFromFile_errors genDocFile (st : State) err :
  MakeGenesisStateFromFile genDocFile = Returned (st, Some err) ->
  st = State_zero
  /\ ((exists cause,
         snd (ioutil_ReadFile genDocFile) = Some cause
         /\ err = fmt_Errorf "couldn't read GenesisDoc file: %v" cause)
      \/ (exists cause,
            snd (ioutil_ReadFile genDocFile) = None
            /\ snd (types_GenesisDocFromJSON
                      (fst (ioutil_ReadFile genDocFile))) = Some cause
            /\ err = fmt_Errorf "error reading GenesisDoc: %v" cause)
      \/ (exists cause,
            snd (ioutil_ReadFile genDocFile) = None
            /\ snd (types_GenesisDocFromJSON
                      (fst (ioutil_ReadFile genDocFile))) = None
            /\ fst (GenesisDoc_ValidateAndComplete
                      (fst (types_GenesisDocFromJSON
                              (fst (ioutil_ReadFile genDocFile)))))
               = Some cause
            /\ err = fmt_Errorf "error in genesis file: %v" cause)).
Proof.
  unfold MakeGenesisStateFromFile, MakeGenesisDocFromFile.
  destruct (ioutil_ReadFile genDocFile) as [json [e1|]]; cbn [fst snd].
  { intros H. injection H as <- <-. split; [reflexivity |].
    left. exists e1. split; reflexivity. }
  destruct (types_GenesisDocFromJSON json) as [doc [e2|]]; cbn [fst snd].
  { intros H. injection H as <- <-. split; [reflexivity |].
    right; left. exists e2. repeat split. }
  unfold MakeGenesisState.
  destruct (GenesisDoc_ValidateAndComplete doc) as [[e3|] [doc'|]];
    cbn [fst snd]; try discriminate.
  - intros H. injection H as <- <-. split; [reflexivity |].
    right; right. exists e3. repeat split.
  - intros H. injection H as <- <-. split; [reflexivity |].
    right; right. exists e3. repeat split.
  - destruct (types.Validators doc');
      (destruct (types.ConsensusParams doc'); discriminate).
Qed.

End StateFacts.

(** * More scenarios, run *)

Section MoreScenarios.

#[local] Existing Instance Scenario.app.
#[local] Existing Instance Scenario.imports.

Import Scenario.

(** The three candidates of scenario S2 at an idle reactor. *)
Lemma list_response_witness :
  exists out X,
    Receive MetadataChannel P [x02; x03] (reactor true SpecSync.Idle)
    = (out, X)
    /\ running X = true
    /\ config X = {| Enabled := true |}
    /\ ((out = Returned tt /\ wire X = [])
        \/ (exists err,
              ValidateBasic (ListSnapshotsResponse (Some candidates))
              = Some err
              /\ out = Returned tt
              /\ X = stopped P err (reactor true SpecSync.Idle))
        \/ (out = Returned tt
            /\ MetadataChannel = MetadataChannel
            /\ wire X =
               [] ++ [Send P ChunkChannel
                        (MustMarshalBinaryBare
                           (request_for (NextChunk (sync X))))])
        \/ (exists err,
              out = Panicked (panic_error err)
              /\ is_rejection err = false
              /\ wire X = [])).
Proof.
  apply (list_response_sends_at_most_one_request MetadataChannel P
           [x02; x03] (reactor true SpecSync.Idle) (Some candidates)).
  reflexivity.
Defined.

(** Chunk 2 arrives while chunk 1 is expected: the panic is [Apply]'s,
    on a message that was decoded and valid, and nothing was sent. *)
Lemma panic_witness :
  fst (Receive ChunkChannel P [x04; x02] (reactor true (restoring 1)))
  = Panicked (panic_error (errors_New "unexpected chunk"))
  /\ wire (with_sync (restoring 1) [] (reactor true (restoring 1))) = []
  /\ exists msg,
       decodeMsg [x04; x02] = inl msg /\ ValidateBasic msg = None.
Proof.
  assert (Hpanic :
    Receive ChunkChannel P [x04; x02] (reactor true (restoring 1))
    = (Panicked (panic_error (errors_New "unexpected chunk")),
       with_sync (restoring 1) [] (reactor true (restoring 1))))
    by reflexivity.
  destruct (panic_comes_from_a_collaborator ChunkChannel P [x04; x02]
              (reactor true (restoring 1))
              (panic_error (errors_New "unexpected chunk"))
              (with_sync (restoring 1) [] (reactor true (restoring 1)))
              Hpanic)
    as (_ & Hwire & msg & Hdec & Hok & _).
  split; [rewrite Hpanic; reflexivity |].
  split; [exact Hwire |].
  exists msg. split; assumption.
Defined.

(** A list of snapshots on the chunk channel starts nothing. *)
Lemma misrouted_witness :
  Receive ChunkChannel P [x02; x01] (reactor true SpecSync.Idle)
  = (Returned tt, reactor true SpecSync.Idle).
Proof.
  apply (misrouted_message_ignored ChunkChannel P [x02; x01]
           (reactor true SpecSync.Idle) single);
    reflexivity.
Defined.

(** Chunk 1 of (10, 1) is asked of a reactor whose application has it. *)
Lemma served_chunk_witness :
  exists sent_chunk,
    fst (Receive ChunkChannel P [x03; x01] (reactor true SpecSync.Idle))
    = Returned tt
    /\ wire (snd (Receive ChunkChannel P [x03; x01]
                    (reactor true SpecSync.Idle)))
       = [Send P ChunkChannel
            (MustMarshalBinaryBare
               (GetSnapshotChunkResponse
                  (Some {| GetSnapshotChunkResponseMessage.Chunk :=
                             sent_chunk |})))]
    /\ SnapshotChunk.Chunk sent_chunk = 1
    /\ len (SnapshotChunk.Checksum sent_chunk) = sha1_Size.
Proof.
  assert (Hdec : decodeMsg [x03; x01] = inl good_request) by reflexivity.
  pose proof (served_chunk_is_the_applications P [x03; x01]
                {| GetSnapshotChunkRequestMessage.Height := 10;
                   GetSnapshotChunkRequestMessage.Format := 1;
                   GetSnapshotChunkRequestMessage.Chunk := 1 |}
                (reactor true SpecSync.Idle)
                (types.mkSnapshotChunk 10 1 1 [x2a] zeros)
                [load_chunk_call
                   {| types.req_Height := 10; types.req_Format := 1;
                      types.req_Chunk := 1 |}]
                eq_refl Hdec eq_refl) as Hserved.
  destruct Hserved as (chunk & Hrecv & _ & _ & Hindex & _ & Hlen & _);
    [reflexivity |].
  exists chunk. rewrite Hrecv. repeat split; assumption.
Defined.

(** The snapshots are asked of a reactor whose application has one. *)
Lemma served_list_witness :
  exists snapshots,
    wire (snd (Receive MetadataChannel P [x01] (reactor true SpecSync.Idle)))
    = [Send P MetadataChannel
         (MustMarshalBinaryBare
            (ListSnapshotsResponse
               (Some {| ListSnapshotsResponseMessage.Snapshots :=
                          snapshots |})))]
    /\ map Snapshot.Height snapshots = [10].
Proof.
  assert (Hdec : decodeMsg [x01] = inl list_request) by reflexivity.
  pose proof (served_list_is_the_applications P [x01]
                (Some ListSnapshotsRequestMessage.mk)
                (reactor true SpecSync.Idle)
                {| types.Snapshots := [types.mkSnapshot 10 1 2 []] |}
                [list_snapshots_call]
                eq_refl Hdec) as Hserved.
  destruct Hserved as (snapshots & Hrecv & Hheights & _); [reflexivity |].
  exists snapshots. rewrite Hrecv. split; [reflexivity | exact Hheights].
Defined.

Lemma largest_message_length : Z.of_nat (len largest_message) = 65000000.
Proof.
  unfold largest_message. rewrite repeat_length. apply Z2Nat.id. lia.
Qed.

(** Exactly 65e6 bytes reach the codec. *)
Lemma decodeMsg_within_size_witness :
  decodeMsg largest_message = UnmarshalBinaryBare largest_message.
Proof.
  apply (decodeMsg_within_size largest_message).
  rewrite largest_message_length. discriminate.
Defined.

End MoreScenarios.

Section StateScenarios.

#[local] Existing Instance StateExample.example_types.
#[local] Existing Instance StateExample.example_imports.

Import state StateExample.

(** The zero state, which is empty, through [ToProto]. *)
Lemma ToProto_fills_witness :
  exists sm st',
    ToProto (Some State_zero) = (Returned (Some sm, None), Some st')
    /\ IsEmpty State_zero = true
    /\ tmstate.Validators sm = None
    /\ Validators st' = Some []
    /\ IsEmpty st' = false.
Proof.
  destruct (ToProto_fills_nil_validator_sets
              (tys := example_types) (imports := example_imports)
              State_zero (@nil byte)
              eq_refl I I I)
    as [Hto Hnonempty].
  eexists _, _. split; [exact Hto |].
  split; [reflexivity |]. split; [reflexivity |].
  split; [reflexivity | exact Hnonempty].
Defined.

Lemma ToProto_non_empty_witness :
  exists result st',
    ToProto (Some State_zero) = (Returned result, Some st')
    /\ Validators st' = Some ValidatorSet_zero
    /\ IsEmpty st' = false.
Proof.
  apply (ToProto_makes_an_empty_state_non_empty
              (tys := example_types) (imports := example_imports)
              State_zero (@nil byte));
    reflexivity.
Defined.

(** The state at height 5 is converted and read back into the zero state:
    the block ID and the block time are lost. *)
Lemma round_trip_witness :
  exists sm,
    ToProto (Some at_height_5) = (Returned (Some sm, None), Some at_height_5)
    /\ FromProto (Some State_zero) (Some sm) =
       (Returned None,
        Some
          (mkState (Version at_height_5) (ChainID at_height_5) 5
             [] 0 (NextValidators at_height_5) (Validators at_height_5)
             (LastValidators at_height_5) 1 (ConsensusParams at_height_5) 1
             [x01] [x02])).
Proof.
  apply (ToProto_FromProto_round_trip
              (tys := example_types) (imports := example_imports)
              at_height_5 State_zero
           validators validators validators [x05]);
    try reflexivity; split; reflexivity.
Defined.

Lemma known_validator_is_returned (set : list (list byte * Z)) address :
  forall i j, lookup set address i <> (j, None, true).
Proof.
  induction set as [|[a power] rest IH]; intros i j; cbn.
  - discriminate.
  - destruct (list_byte_eqb a address); [discriminate | apply IH].
Qed.

(** The commit of four signatures: two votes count, with weights 10 and
    30, and the median is the later one; without a validator set the first
    vote already panics. *)
Lemma MedianTime_witness :
  MedianTime (Some commit) (Some validators) = Returned 300
  /\ map (weighted_entry (Some validators)) (types.Signatures commit)
     = [ Some {| tmtime.Time := 100; tmtime.Weight := 10 |}; None;
         Some {| tmtime.Time := 300; tmtime.Weight := 30 |}; None ]
  /\ MedianTime (Some commit) None = Panicked nil_dereference.
Proof.
  destruct (MedianTime_weighs_the_votes_that_count
              (tys := example_types) (imports := example_imports)
              commit validators)
    as (Hmedian & _ & _ & Hnil & _).
  { intros addr i. apply known_validator_is_returned. }
  split; [etransitivity; [exact Hmedian | reflexivity] |].
  split; [reflexivity |].
  apply Hnil. apply Exists_cons_hd. reflexivity.
Defined.

(** The two commits differ only where votes do not count. *)
Lemma MedianTime_ignores_witness :
  MedianTime (Some commit) (Some validators)
  = MedianTime (Some commit') (Some validators).
Proof.
  apply (MedianTime_ignores_votes_that_do_not_count
              (tys := example_types) (imports := example_imports)
              commit commit'
           (Some validators)).
  unfold commit, commit', commit_of. cbn [types.Signatures].
  apply Forall2_cons; [right; repeat split |].
  apply Forall2_cons; [left; split; left; reflexivity |].
  apply Forall2_cons; [right; repeat split |].
  apply Forall2_cons;
    [left; split;
       [right; exists validators; split; reflexivity | left; reflexivity] |].
  apply Forall2_nil.
Defined.

(** Blocks from the state at height 5, and none from the zero state. *)
Lemma MakeBlock_witness :
  MakeBlock at_height_5 1 [] None [] [] = Returned (1, 500, 65536)
  /\ MakeBlock at_height_5 6 [] None [] [] = Panicked nil_dereference
  /\ MakeBlock at_height_5 6 [] (Some commit) [] []
     = Returned (6, 300, 65536)
  /\ exists v, MakeBlock State_zero 1 [] None [] [] = Panicked v.
Proof.
  pose proof (MakeBlock_takes_its_time_from_the_state_or_the_commit
                (tys := example_types) (imports := example_imports)
                at_height_5 1 [] None [] []) as (_ & Hfirst & _ & _).
  pose proof (MakeBlock_takes_its_time_from_the_state_or_the_commit
                (tys := example_types) (imports := example_imports)
                at_height_5 6 [] None [] []) as (_ & _ & Hnil & _).
  pose proof (MakeBlock_takes_its_time_from_the_state_or_the_commit
                (tys := example_types) (imports := example_imports)
                at_height_5 6 [] (Some commit) [] []) as (_ & _ & _ & Hlater).
  pose proof (MakeBlock_takes_its_time_from_the_state_or_the_commit
                (tys := example_types) (imports := example_imports)
                State_zero 1 [] None [] []) as (Hzero & _).
  split; [rewrite Hfirst; [reflexivity | reflexivity | discriminate
                           | discriminate] |].
  split; [apply Hnil; [discriminate | reflexivity] |].
  split.
  - rewrite (Hlater ltac:(discriminate) ltac:(discriminate)
               ltac:(discriminate) 300 eq_refl).
    reflexivity.
  - apply Hzero. left. reflexivity.
Defined.

(** The genesis document has no time of its own; validation gives it one,
    and that is the time of block 1. *)
Lemma first_block_witness :
  exists st,
    MakeGenesisState (Some (genesis_doc "chain")) = Returned (st, None)
    /\ types.GenesisTime (genesis_doc "chain") = 0
    /\ LastBlockTime st = 1700000000
    /\ MakeBlock st 1 [] None [] [] = Returned (1, 1700000000, 65536).
Proof.
  assert (E : exists st,
             MakeGenesisState (Some (genesis_doc "chain"))
             = Returned (st, None))
    by (eexists; reflexivity).
  destruct E as [st E]. exists st.
  destruct (first_block_carries_the_genesis_time
              (tys := example_types) (imports := example_imports)
              (Some (genesis_doc "chain")) st E)
    as (doc & Hdoc & _ & _ & _ & _ & _ & _ & Htime & Hblock).
  vm_compute in Hdoc. injection Hdoc as <-.
  split; [exact E |]. split; [reflexivity |]. split; [exact Htime |].
  rewrite Hblock. reflexivity.
Defined.

(** A document without a chain ID fails validation. *)
Lemma genesis_errors_witness :
  MakeGenesisStateFromFile "unnamed.json" =
  Returned
    (State_zero,
     Some (fmt_Errorf "error in genesis file: %v"
             (errors_New "genesis doc must include non-empty chain_id")))
  /\ fst (MakeGenesisDocFromFile "missing.json") = None.
Proof.
  assert (E : MakeGenesisStateFromFile "unnamed.json" =
              Returned
                (State_zero,
                 Some (fmt_Errorf "error in genesis file: %v"
                         (errors_New
                            "genesis doc must include non-empty chain_id"))))
    by reflexivity.
  destruct (MakeGenesisStateFromFile_errors
              (tys := example_types) (imports := example_imports)
              "unnamed.json" State_zero _ E) as [_ _].
  split; [exact E | reflexivity].
Defined.

End StateScenarios.
